(** * NeoMutt: the GDBM store backend, the maildir delimiter validator and
      the data shared by the index

    A shallow embedding of three translation units:
    - [store/gdbm.c]: the adapter binding the key/value store contract to
      GNU dbm;
    - [maildir/config.c]: the validator of [maildir_field_delimiter];
    - [index/shared_data.c]: the data shared between index, pager and sidebar.

    C pointers are [option]s ([None] is NULL), C integers are [Z] with
    their conversions written out, static and heap state is passed
    explicitly. *)

From Stdlib Require Import ZArith Lia Strings.Byte Ascii String List.
From stdpp Require Import gmap strings list fin_maps.

Local Open Scope Z_scope.

(** ** Machine integers and memory *)

Module C.

(** [INT_MAX] of <limits.h>: [int] is 32 bits wide on every platform
    NeoMutt builds on. *)
Definition INT_MAX : Z := 2147483647.

(** [SIZE_MAX]: [size_t] is an unsigned 64-bit integer (LP64). *)
Definition SIZE_MAX : Z := 18446744073709551615.

(** Conversion to [int] (assignment of a [size_t] to an [int] field):
    reduction modulo 2^32 into the signed range. *)
Definition to_int (z : Z) : Z := (z + 2147483648) mod 4294967296 - 2147483648.

(** Conversion to [size_t] (assignment of an [int] to a [size_t] object):
    reduction modulo 2^64. *)
Definition to_size_t (z : Z) : Z := z mod 18446744073709551616.

(** Memory is a finite map from block addresses to the bytes of the
    block; a pointer to a buffer is NULL or the address of a block. *)
Definition addr : Type := positive.

Definition memory : Type := gmap positive (list byte).

(** [malloc]: a block at an address no live block uses. *)
Definition malloc (bytes : list byte) (m : memory) : addr * memory :=
  let a := fresh (dom m) in (a, <[a := bytes]> m).

(** [free] of a non-null pointer. *)
Definition free (a : addr) (m : memory) : memory := delete a m.

End C.

Export C.

#[global] Instance byte_eq_dec : EqDecision byte := Byte.byte_eq_dec.

#[global] Instance byte_countable : Countable byte :=
  inj_countable Byte.to_N Byte.of_N Byte.of_to_N.

(** ** The GNU dbm library, as the adapter sees it *)

(** The [datum] of <gdbm.h>: a pointer and a size in bytes ([int]). *)
Record datum : Type := Datum { dptr : option addr; dsize : Z }.

(** [datum d = { 0 };] *)
Definition datum_zero : datum := {| dptr := None; dsize := 0 |}.

(** The open modes of <gdbm.h>. *)
Inductive open_flag : Type :=
| GDBM_READER
| GDBM_WRITER
| GDBM_WRCREAT
| GDBM_NEWDB.

(** The store modes of <gdbm.h>. *)
Inductive store_flag : Type :=
| GDBM_INSERT
| GDBM_REPLACE.

#[global] Instance open_flag_eq_dec : EqDecision open_flag.
Proof. solve_decision. Defined.

#[global] Instance store_flag_eq_dec : EqDecision store_flag.
Proof. solve_decision. Defined.

#[global] Instance datum_eq_dec : EqDecision datum.
Proof. solve_decision. Defined.

(** The entry points of libgdbm the adapter links against.  The library
    is external to NeoMutt: the adapter is written against this interface
    and its properties that do not depend on what the library does are
    proved for every implementation of it.  [gdbm_state] is everything the
    library can see and change besides the program's memory (the file
    system, its descriptors); [GDBM_FILE] is a non-null descriptor.
    [gdbm_open]'s last argument (the fatal-error callback) is always NULL
    in the adapter and is left out. *)
Class GdbmLib : Type := {
  gdbm_state : Type;
  GDBM_FILE : Type;
  gdbm_open : string -> Z -> open_flag -> Z -> gdbm_state -> option GDBM_FILE * gdbm_state;
  gdbm_fetch : GDBM_FILE -> datum -> memory * gdbm_state -> datum * (memory * gdbm_state);
  gdbm_store : GDBM_FILE -> datum -> datum -> store_flag -> memory * gdbm_state -> Z * (memory * gdbm_state);
  gdbm_delete : GDBM_FILE -> datum -> memory * gdbm_state -> Z * (memory * gdbm_state);
  gdbm_close : GDBM_FILE -> gdbm_state -> gdbm_state
}.

(** A call into libgdbm, as recorded in the world's call log. *)
Inductive gdbm_call `{GdbmLib} : Type :=
| CallOpen (path : string) (block_size : Z) (flags : open_flag) (mode : Z)
| CallFetch (dbf : GDBM_FILE) (key : datum)
| CallStore (dbf : GDBM_FILE) (key content : datum) (flag : store_flag)
| CallDelete (dbf : GDBM_FILE) (key : datum)
| CallClose (dbf : GDBM_FILE).

(** The world the adapter runs in: the program's memory, the state behind
    libgdbm, and the log of the calls made into libgdbm, oldest first. *)
Record world `{GdbmLib} : Type := World {
  w_mem : memory;
  w_gdbm : gdbm_state;
  w_calls : list gdbm_call
}.

(** ** A state monad over the world *)

Definition M `{GdbmLib} (A : Type) : Type := world -> A * world.

Definition ret `{GdbmLib} {A : Type} (a : A) : M A := fun w => (a, w).

Definition bind `{GdbmLib} {A B : Type} (m : M A) (k : A -> M B) : M B :=
  fun w => let (a, w') := m w in k a w'.

Notation "'do' x <- m ; k" := (bind m (fun x => k))
  (at level 10, x name, m at level 100, k at level 200).

(** Each library call is logged, then run. *)
Definition call_open `{GdbmLib} (path : string) (block_size : Z)
    (flags : open_flag) (mode : Z) : M (option GDBM_FILE) :=
  fun w =>
    let (db, g) := gdbm_open path block_size flags mode (w_gdbm w) in
    (db, {| w_mem := w_mem w; w_gdbm := g;
            w_calls := w_calls w ++ [CallOpen path block_size flags mode] |}).

Definition call_fetch `{GdbmLib} (dbf : GDBM_FILE) (key : datum) : M datum :=
  fun w =>
    let '(d, (m, g)) := gdbm_fetch dbf key (w_mem w, w_gdbm w) in
    (d, {| w_mem := m; w_gdbm := g; w_calls := w_calls w ++ [CallFetch dbf key] |}).

Definition call_store `{GdbmLib} (dbf : GDBM_FILE) (key content : datum)
    (flag : store_flag) : M Z :=
  fun w =>
    let '(rc, (m, g)) := gdbm_store dbf key content flag (w_mem w, w_gdbm w) in
    (rc, {| w_mem := m; w_gdbm := g;
            w_calls := w_calls w ++ [CallStore dbf key content flag] |}).

Definition call_delete `{GdbmLib} (dbf : GDBM_FILE) (key : datum) : M Z :=
  fun w =>
    let '(rc, (m, g)) := gdbm_delete dbf key (w_mem w, w_gdbm w) in
    (rc, {| w_mem := m; w_gdbm := g; w_calls := w_calls w ++ [CallDelete dbf key] |}).

Definition call_close `{GdbmLib} (dbf : GDBM_FILE) : M unit :=
  fun w =>
    (tt, {| w_mem := w_mem w; w_gdbm := gdbm_close dbf (w_gdbm w);
            w_calls := w_calls w ++ [CallClose dbf] |}).

(** Modelled from the spec: [FREE] is a macro of mutt/memory.h, which is
    not among the sources.  It is handed the address of a pointer.  As the
    contract of [free] has it ("releases a buffer previously returned by
    fetch; no-op if the reference is null"): nothing happens when the
    reference is null or holds NULL; otherwise the block is given back to
    the C allocator and the pointer the reference designates is cleared.
    The clearing is not in the contract's words: it is what the macro is
    given the pointer's address for ([void **ptr], here and in
    [index_shared_data_free]).  The result is what the referenced
    pointer holds afterwards ([None] when there is no such pointer). *)
Definition FREE (ptr : option (option addr)) (m : memory)
    : option (option addr) * memory :=
  match ptr with
  | None => (None, m)
  | Some None => (Some None, m)
  | Some (Some a) => (Some None, free a m)
  end.

(** Code that works on the program's memory only. *)
Definition on_memory `{GdbmLib} {A : Type} (f : memory -> A * memory) : M A :=
  fun w =>
    let (a, m) := f (w_mem w) in
    (a, {| w_mem := m; w_gdbm := w_gdbm w; w_calls := w_calls w |}).

(** ** store/gdbm.c *)

(** A [StoreHandle *]: NULL or the descriptor it cloaks. *)
Definition StoreHandle `{GdbmLib} : Type := option GDBM_FILE.

(** [store_gdbm_open]: implements [StoreOps::open()].  [path] is NULL or a
    C string.  00600 is 384. *)
Definition store_gdbm_open `{GdbmLib} (path : option string) : M StoreHandle :=
  match path with
  | None => ret None
  | Some p =>
      let pagesize := 4096 in
      do db <- call_open p pagesize GDBM_WRCREAT 384;
      match db with
      | None =>
          (* if rw failed try ro *)
          call_open p pagesize GDBM_READER 384
      | Some _ => ret db
      end
  end.

(** [store_gdbm_fetch]: implements [StoreOps::fetch()].  [vlen] is what the
    object [*vlen] holds at the call; the result is the returned pointer
    with what [*vlen] holds at the return. *)
Definition store_gdbm_fetch `{GdbmLib} (store : StoreHandle)
    (key : option addr) (klen : Z) (vlen : Z) : M (option addr * Z) :=
  match store with
  | None => ret (None, vlen)
  | Some db =>
      if klen >? INT_MAX then ret (None, vlen)
      else
        let dkey := {| dptr := key; dsize := to_int klen |} in
        do data <- call_fetch db dkey;
        ret (dptr data, to_size_t (dsize data))
  end.

(** [store_gdbm_free]: implements [StoreOps::free()].  [ptr] is NULL or
    the address of a pointer; the result is what that pointer holds at
    the return. *)
Definition store_gdbm_free `{GdbmLib} (store : StoreHandle)
    (ptr : option (option addr)) : M (option (option addr)) :=
  on_memory (FREE ptr).

(** [store_gdbm_store]: implements [StoreOps::store()]. *)
Definition store_gdbm_store `{GdbmLib} (store : StoreHandle)
    (key : option addr) (klen : Z) (value : option addr) (vlen : Z) : M Z :=
  match store with
  | None => ret (-1)
  | Some db =>
      if (klen >? INT_MAX) || (vlen >? INT_MAX) then ret (-1)
      else
        let dkey := {| dptr := key; dsize := to_int klen |} in
        let databuf := {| dptr := value; dsize := to_int vlen |} in
        call_store db dkey databuf GDBM_REPLACE
  end.

(** [store_gdbm_delete_record]: implements [StoreOps::delete_record()]. *)
Definition store_gdbm_delete_record `{GdbmLib} (store : StoreHandle)
    (key : option addr) (klen : Z) : M Z :=
  match store with
  | None => ret (-1)
  | Some db =>
      if klen >? INT_MAX then ret (-1)
      else
        let dkey := {| dptr := key; dsize := to_int klen |} in
        call_delete db dkey
  end.

(** [store_gdbm_close]: implements [StoreOps::close()].  [ptr] is NULL or
    the address of the caller's handle; the result is what the caller's
    handle holds at the return ([None] when [ptr] is NULL). *)
Definition store_gdbm_close `{GdbmLib} (ptr : option StoreHandle)
    : M (option StoreHandle) :=
  match ptr with
  | None => ret None
  | Some None => ret (Some None)
  | Some (Some db) =>
      do _ <- call_close db;
      ret (Some None)
  end.

(** What a caller gets to see of a fetch: the bytes of the block the
    returned pointer designates ([None] for a NULL pointer) and the
    length reported through [vlen], which holds 0 at the call. *)
Definition fetched `{GdbmLib} (store : StoreHandle) (key : option addr) (klen : Z)
    (w : world) : option (list byte) * Z :=
  let res := store_gdbm_fetch store key klen 0 w in
  (match res.1.1 with Some a => w_mem res.2 !! a | None => None end, res.1.2).

(** ** A reference implementation of the library interface *)

(** The behaviour the GNU dbm manual documents, over a file system in
    which a database file is a finite map from keys to contents with the
    owner's read and write permissions.  It serves where a property
    depends on what the library does, and to run the adapter. *)
Module RefGdbm.

Record db_file : Type := DbFile {
  f_readable : bool;
  f_writable : bool;
  f_records : gmap (list byte) (list byte)
}.

(** What a descriptor stands for: the file it was opened on, and whether
    it was opened as a writer. *)
Record descriptor : Type := Descriptor {
  d_path : string;
  d_writer : bool
}.

(** [disk]: the database files that exist; [creatable]: the paths at
    which a file can be created; [opened]: the live descriptors. *)
Record state : Type := State {
  disk : gmap string db_file;
  creatable : gset string;
  opened : gmap positive descriptor
}.

Definition set_disk (d : gmap string db_file) (s : state) : state :=
  {| disk := d; creatable := creatable s; opened := opened s |}.

Definition set_records (r : gmap (list byte) (list byte)) (f : db_file) : db_file :=
  {| f_readable := f_readable f; f_writable := f_writable f; f_records := r |}.

(** A file created with permission bits [mode]: 0400 is the owner's read
    bit, 0200 the owner's write bit. *)
Definition new_file (mode : Z) : db_file :=
  {| f_readable := Z.testbit mode 8; f_writable := Z.testbit mode 7; f_records := ∅ |}.

Definition new_descriptor (d : descriptor) (s : state) : option positive * state :=
  let h := fresh (dom (opened s)) in
  (Some h, {| disk := disk s; creatable := creatable s; opened := <[h := d]> (opened s) |}).

(** The bytes a datum designates: [dsize] bytes at [dptr].  A datum with
    a NULL pointer designates none here, whereas libgdbm's fetch and
    delete read a NULL pointer with size 0 as the empty key: where a
    property below depends on the bytes of a key, the key is given by a
    buffer. *)
Definition read_datum (m : memory) (d : datum) : option (list byte) :=
  a ← dptr d;
  b ← m !! a;
  if bool_decide (0 <= dsize d <= Z.of_nat (length b))
  then Some (take (Z.to_nat (dsize d)) b) else None.

(** [gdbm_open]: a reader needs a readable file; a writer needs a readable
    and writable one; [GDBM_WRCREAT] and [GDBM_NEWDB] create a missing
    file where that is possible, and [GDBM_NEWDB] empties an existing
    one.  Failure is a NULL descriptor. *)
Definition ref_open (path : string) (block_size : Z) (flags : open_flag)
    (mode : Z) (s : state) : option positive * state :=
  match disk s !! path with
  | Some f =>
      match flags with
      | GDBM_READER =>
          if f_readable f then new_descriptor (Descriptor path false) s else (None, s)
      | GDBM_WRITER | GDBM_WRCREAT =>
          if f_readable f && f_writable f
          then new_descriptor (Descriptor path true) s else (None, s)
      | GDBM_NEWDB =>
          if f_readable f && f_writable f
          then new_descriptor (Descriptor path true)
                 (set_disk (<[path := set_records ∅ f]> (disk s)) s)
          else (None, s)
      end
  | None =>
      match flags with
      | GDBM_READER | GDBM_WRITER => (None, s)
      | GDBM_WRCREAT | GDBM_NEWDB =>
          if decide (path ∈ creatable s)
          then new_descriptor (Descriptor path true)
                 (set_disk (<[path := new_file mode]> (disk s)) s)
          else (None, s)
      end
  end.

(** [gdbm_fetch]: the content stored under the key, in a block obtained
    from [malloc]; a datum with a NULL [dptr] (and size 0) when there is
    none.  The database is left as it is. *)
Definition ref_fetch (dbf : positive) (key : datum) (ms : memory * state)
    : datum * (memory * state) :=
  match (d ← opened ms.2 !! dbf;
         f ← disk ms.2 !! d_path d;
         k ← read_datum ms.1 key;
         f_records f !! k) with
  | Some v =>
      let (a, m') := malloc v ms.1 in
      ({| dptr := Some a; dsize := Z.of_nat (length v) |}, (m', ms.2))
  | None => (datum_zero, ms)
  end.

(** [gdbm_store]: -1 when the descriptor is not a writer's or a datum has
    a NULL pointer; 1 when the flag is [GDBM_INSERT] and the key exists;
    otherwise the content is stored under the key, in place of what was
    there, and the result is 0. *)
Definition ref_store (dbf : positive) (key content : datum) (flag : store_flag)
    (ms : memory * state) : Z * (memory * state) :=
  match opened ms.2 !! dbf with
  | Some d =>
      if d_writer d then
        match disk ms.2 !! d_path d, read_datum ms.1 key, read_datum ms.1 content with
        | Some f, Some k, Some v =>
            match flag, f_records f !! k with
            | GDBM_INSERT, Some _ => (1, ms)
            | _, _ =>
                (0, (ms.1, set_disk (<[d_path d := set_records (<[k := v]> (f_records f)) f]>
                                       (disk ms.2)) ms.2))
            end
        | _, _, _ => (-1, ms)
        end
      else (-1, ms)
  | None => (-1, ms)
  end.

(** [gdbm_delete]: -1 when the descriptor is not a writer's or the key is
    not in the database; otherwise the record is removed and the result
    is 0. *)
Definition ref_delete (dbf : positive) (key : datum) (ms : memory * state)
    : Z * (memory * state) :=
  match opened ms.2 !! dbf with
  | Some d =>
      if d_writer d then
        match disk ms.2 !! d_path d, read_datum ms.1 key with
        | Some f, Some k =>
            match f_records f !! k with
            | Some _ =>
                (0, (ms.1, set_disk (<[d_path d := set_records (delete k (f_records f)) f]>
                                       (disk ms.2)) ms.2))
            | None => (-1, ms)
            end
        | _, _ => (-1, ms)
        end
      else (-1, ms)
  | None => (-1, ms)
  end.

(** [gdbm_close]: the descriptor is released. *)
Definition ref_close (dbf : positive) (s : state) : state :=
  {| disk := disk s; creatable := creatable s; opened := delete dbf (opened s) |}.

#[global] Instance ref_gdbm : GdbmLib := {|
  gdbm_state := state;
  GDBM_FILE := positive;
  gdbm_open := ref_open;
  gdbm_fetch := ref_fetch;
  gdbm_store := ref_store;
  gdbm_delete := ref_delete;
  gdbm_close := ref_close
|}.

(** A world with nothing open and nothing logged. *)
Definition initial_world (m : memory) (d : gmap string db_file) (c : gset string)
    : @world ref_gdbm :=
  {| w_mem := m; w_gdbm := {| disk := d; creatable := c; opened := ∅ |}; w_calls := [] |}.

End RefGdbm.

(** The content the reference library holds for a datum through a
    descriptor: what [ref_fetch] looks up before it allocates. *)
Definition record_of (dbf : positive) (key : datum) (ms : memory * RefGdbm.state)
    : option (list byte) :=
  d ← RefGdbm.opened ms.2 !! dbf;
  f ← RefGdbm.disk ms.2 !! RefGdbm.d_path d;
  k ← RefGdbm.read_datum ms.1 key;
  RefGdbm.f_records f !! k.

(** ** maildir/config.c *)

Module Maildir.

(** A C string is given by the characters at its address; the string ends
    at the first NUL among them, or after the last of them. *)
Definition NUL : ascii := ascii_of_nat 0.

(** [strlen] of <string.h>. *)
Fixpoint strlen (s : string) : nat :=
  match s with
  | EmptyString => 0
  | String c s' => if decide (c = NUL) then 0 else S (strlen s')
  end.

(** The characters of a C string: those before its terminating NUL. *)
Fixpoint c_str (s : string) : string :=
  match s with
  | EmptyString => EmptyString
  | String c s' => if decide (c = NUL) then EmptyString else String c (c_str s')
  end.

(** [*s]: the first character of a C string, NUL when it is empty. *)
Definition deref (s : string) : ascii :=
  match s with
  | EmptyString => NUL
  | String c _ => c
  end.

(** [strchr] of <string.h>: the offset of the first occurrence of [c] in
    the C string [s], whose terminating NUL is part of the string; [None]
    is the NULL result. *)
Fixpoint strchr (s : string) (c : ascii) : option nat :=
  match s with
  | EmptyString => if decide (c = NUL) then Some 0%nat else None
  | String x s' =>
      if decide (x = c) then Some 0%nat
      else if decide (x = NUL) then None
      else S <$> strchr s' c
  end.

(** [isalnum] of <ctype.h> in the "C" locale. *)
Definition isalnum_C (c : ascii) : bool :=
  let n := nat_of_ascii c in
  ((48 <=? n) && (n <=? 57) || (65 <=? n) && (n <=? 90) || (97 <=? n) && (n <=? 122))%nat.

(** The result codes of the config system the validator returns. *)
Inductive config_result : Type :=
| CSR_SUCCESS
| CSR_ERR_INVALID.

#[global] Instance config_result_eq_dec : EqDecision config_result.
Proof. solve_decision. Defined.

(** What the validator reads of a [struct ConfigDef]: the string its
    [initial] field points to. *)
Record ConfigDef : Type := { initial : string }.

(** The entry of [MaildirVars] the validator is registered in. *)
Definition maildir_field_delimiter_def : ConfigDef := {| initial := ":" |}.

Section Validator.

(** [isalnum] depends on the locale of the process. *)
Variable isalnum : ascii -> bool.

(** [maildir_field_delimiter_validator]: implements
    [ConfigDef::validator()].  [changed] is what the function's static
    [maildir_field_delimiter_changed] holds at the call, [value] the
    string the [intptr_t] points to, [err] the contents of the error
    buffer; the result is the return code with the error buffer and the
    static at the return.  The config set is not used. *)
Definition maildir_field_delimiter_validator (changed : bool) (cdef : ConfigDef)
    (value : string) (err : string) : config_result * string * bool :=
  let delim := value in
  if negb (strlen delim =? 1)%nat then
    (CSR_ERR_INVALID, "maildir_field_delimiter must be exactly one character long"%string,
     changed)
  else if isalnum (deref delim) || bool_decide (is_Some (strchr "-.\/" (deref delim))) then
    (CSR_ERR_INVALID, "maildir_field_delimiter cannot be alphanumeric or '-.\/'"%string,
     changed)
  else if changed then
    (CSR_ERR_INVALID, "maildir_field_delimiter can only be set once"%string, changed)
  else if negb (bool_decide (deref delim = deref (initial cdef))) then
    (CSR_SUCCESS, err, true)
  else
    (CSR_SUCCESS, err, changed).

(** Successive validations, as the config system requests them one after
    the other, each with the definition and the value it is asked about:
    the static carries over from each call to the next.  The result lists
    the return codes in order, with the static at the end. *)
Fixpoint validations (changed : bool) (requests : list (ConfigDef * string))
    : list config_result * bool :=
  match requests with
  | [] => ([], changed)
  | (cdef, v) :: rest =>
      let '(rc, _, changed') := maildir_field_delimiter_validator changed cdef v "" in
      let (rcs, changed'') := validations changed' rest in
      (rc :: rcs, changed'')
  end.

End Validator.

End Maildir.

(** ** index/shared_data.c *)

Module Index.

(** Pointers to the program's objects are NULL or an address. *)
Definition ptr : Type := option positive.

(** [struct IndexSharedData], with the fields this file uses. *)
Record IndexSharedData : Type := {
  sub : ptr;           (* struct ConfigSubset * *)
  account : ptr;       (* struct Account * *)
  mailbox_view : ptr;  (* struct MailboxView * *)
  mailbox : ptr;       (* struct Mailbox * *)
  email : ptr;         (* struct Email * *)
  email_seq : Z;       (* size_t *)
  notify : ptr         (* struct Notify * *)
}.

(** The notification type this file sends. *)
Inductive NotifyType : Type :=
| NT_INDEX.

(** A call of [notify_send]: the notifier, the type and subtype of the
    event.  The event's data is the shared data itself. *)
Record notification : Type := NotifySend {
  n_source : ptr;
  n_type : NotifyType;
  n_subtype : Z
}.

Section SharedData.

(** Parts of the program defined elsewhere: [mview_mailbox] (mview.c)
    gives the mailbox of a view that may be NULL; [Mailbox_account] and
    [Email_sequence] read the field [account] of a mailbox and the field
    [sequence] of an email; [NeoMutt_sub] is [NeoMutt->sub]. *)
Variable mview_mailbox : ptr -> ptr.
Variable Mailbox_account : positive -> ptr.
Variable Email_sequence : positive -> Z.
Variable NeoMutt_sub : ptr.

(** The [NotifyIndex] flags of shared_data.h. *)
Variable NT_INDEX_NO_FLAGS : Z.
Variable NT_INDEX_SUBSET : Z.
Variable NT_INDEX_ACCOUNT : Z.
Variable NT_INDEX_MVIEW : Z.
Variable NT_INDEX_MAILBOX : Z.
Variable NT_INDEX_EMAIL : Z.

(** [p != q] on pointers. *)
Definition ptr_ne (p q : ptr) : bool := negb (bool_decide (p = q)).

(** [index_shared_data_set_mview]: set the mailbox view for the index and
    friends.  [shared] is NULL or what the shared data holds at the call;
    the result is what it holds at the return, with the notifications
    sent. *)
Definition index_shared_data_set_mview (shared : option IndexSharedData) (mv : ptr)
    : option IndexSharedData * list notification :=
  match shared with
  | None => (None, [])
  | Some sh =>
      let subtype := NT_INDEX_NO_FLAGS in
      let '(sh, subtype) :=
        if ptr_ne (mailbox_view sh) mv then
          ({| sub := sub sh; account := account sh; mailbox_view := mv;
              mailbox := mailbox sh; email := email sh; email_seq := email_seq sh;
              notify := notify sh |},
           Z.lor subtype NT_INDEX_MVIEW)
        else (sh, subtype) in
      let m := mview_mailbox mv in
      let '(sh, subtype) :=
        if ptr_ne (mailbox sh) m then
          ({| sub := sub sh; account := account sh; mailbox_view := mailbox_view sh;
              mailbox := m; email := None; email_seq := 0;
              notify := notify sh |},
           Z.lor subtype (Z.lor NT_INDEX_MAILBOX NT_INDEX_EMAIL))
        else (sh, subtype) in
      let a := match m with Some mp => Mailbox_account mp | None => None end in
      let '(sh, subtype) :=
        if ptr_ne (account sh) a then
          ({| sub := sub sh; account := a; mailbox_view := mailbox_view sh;
              mailbox := mailbox sh; email := email sh; email_seq := email_seq sh;
              notify := notify sh |},
           Z.lor subtype NT_INDEX_ACCOUNT)
        else (sh, subtype) in
      let sub' := NeoMutt_sub in
      let '(sh, subtype) :=
        if ptr_ne (sub sh) sub' then
          ({| sub := sub'; account := account sh; mailbox_view := mailbox_view sh;
              mailbox := mailbox sh; email := email sh; email_seq := email_seq sh;
              notify := notify sh |},
           Z.lor subtype NT_INDEX_SUBSET)
        else (sh, subtype) in
      if negb (subtype =? NT_INDEX_NO_FLAGS)
      then (Some sh, [NotifySend (notify sh) NT_INDEX subtype])
      else (Some sh, [])
  end.

(** [index_shared_data_set_email]: set the current email for the index and
    friends; [e] may be NULL. *)
Definition index_shared_data_set_email (shared : option IndexSharedData) (e : ptr)
    : option IndexSharedData * list notification :=
  match shared with
  | None => (None, [])
  | Some sh =>
      let seq := match e with Some ep => Email_sequence ep | None => 0 end in
      if ptr_ne (email sh) e || negb (email_seq sh =? seq) then
        let sh' :=
          {| sub := sub sh; account := account sh; mailbox_view := mailbox_view sh;
             mailbox := mailbox sh; email := e; email_seq := seq;
             notify := notify sh |} in
        (Some sh', [NotifySend (notify sh') NT_INDEX NT_INDEX_EMAIL])
      else (Some sh, [])
  end.

(** [index_shared_data_is_cur_email]: whether an email is the currently
    selected one.  [e] is dereferenced without a test: it is the address
    of an email. *)
Definition index_shared_data_is_cur_email (shared : option IndexSharedData)
    (e : positive) : bool :=
  match shared with
  | None => false
  | Some sh => email_seq sh =? Email_sequence e
  end.

End SharedData.

End Index.

(** ** Concrete worlds *)

(** The worlds the adapter is run in below: a program memory holding a
    key and two values, over a file system in which the cache file can be
    created, exists without write permission, or cannot be had at all. *)
Module Scenario.

Import RefGdbm.

Definition cache_path : string := "/tmp/cache.db".

(** "abc" *)
Definition key_abc : list byte := [x61; x62; x63].

(** "xyz123" *)
Definition val_xyz123 : list byte := [x78; x79; x7a; x31; x32; x33].

(** "old" *)
Definition val_old : list byte := [x6f; x6c; x64].

(** The key at address 1, "xyz123" at address 2, "old" at address 3. *)
Definition mem0 : memory :=
  <[1%positive := key_abc]> (<[2%positive := val_xyz123]> (<[3%positive := val_old]> ∅)).

(** No cache file yet; one can be created. *)
Definition world_creatable : @world ref_gdbm :=
  initial_world mem0 ∅ {[cache_path]}.

(** The cache file holds "old" under "abc" and may only be read. *)
Definition world_read_only : @world ref_gdbm :=
  initial_world mem0
    {[cache_path := {| f_readable := true; f_writable := false;
                       f_records := {[key_abc := val_old]} |}]} ∅.

(** No cache file, and none can be created. *)
Definition world_inaccessible : @world ref_gdbm :=
  initial_world mem0 ∅ ∅.

(** The world after [store_gdbm_open] of the cache path, with the handle. *)
Definition opened_in (w : @world ref_gdbm) : StoreHandle * @world ref_gdbm :=
  store_gdbm_open (Some cache_path) w.

End Scenario.

(** * Properties of the store adapter *)

Section Adapter.

Context `{G : GdbmLib}.

(** Below [INT_MAX] the conversion of a length to [int] changes nothing. *)
Lemma to_int_small (z : Z) : 0 <= z <= INT_MAX -> to_int z = z.
Proof.
  unfold to_int, INT_MAX. intros Hz.
  rewrite Z.mod_small by lia. lia.
Qed.

Lemma to_size_t_small (z : Z) : 0 <= z <= INT_MAX -> to_size_t z = z.
Proof.
  unfold to_size_t, INT_MAX. intros Hz.
  apply Z.mod_small. lia.
Qed.

(** What [store_gdbm_fetch] does once its guard is passed: one call of
    [gdbm_fetch], whose datum it hands over. *)
Lemma store_gdbm_fetch_calls (db : GDBM_FILE) (key : option addr) (klen vlen : Z)
    (w : world) :
  klen <= INT_MAX ->
  store_gdbm_fetch (Some db) key klen vlen w =
    let dkey := {| dptr := key; dsize := to_int klen |} in
    let '(d, (m, g)) := gdbm_fetch db dkey (w_mem w, w_gdbm w) in
    ((dptr d, to_size_t (dsize d)),
     {| w_mem := m; w_gdbm := g; w_calls := w_calls w ++ [CallFetch db dkey] |}).
Proof.
  intros Hk. unfold store_gdbm_fetch.
  destruct (klen >? INT_MAX) eqn:E; [apply Z.gtb_lt in E; lia |].
  unfold bind, call_fetch, ret. cbn zeta.
  destruct (gdbm_fetch _ _ _) as [d [m g]]. reflexivity.
Qed.

(** What [store_gdbm_store] does once its guard is passed: one call of
    [gdbm_store] with [GDBM_REPLACE], whose result it returns. *)
Lemma store_gdbm_store_calls (db : GDBM_FILE) (key : option addr) (klen : Z)
    (value : option addr) (vlen : Z) (w : world) :
  klen <= INT_MAX -> vlen <= INT_MAX ->
  store_gdbm_store (Some db) key klen value vlen w =
    let dkey := {| dptr := key; dsize := to_int klen |} in
    let databuf := {| dptr := value; dsize := to_int vlen |} in
    let '(rc, (m, g)) := gdbm_store db dkey databuf GDBM_REPLACE (w_mem w, w_gdbm w) in
    (rc, {| w_mem := m; w_gdbm := g;
            w_calls := w_calls w ++ [CallStore db dkey databuf GDBM_REPLACE] |}).
Proof.
  intros Hk Hv. unfold store_gdbm_store.
  destruct (klen >? INT_MAX) eqn:Ek; [apply Z.gtb_lt in Ek; lia |].
  destruct (vlen >? INT_MAX) eqn:Ev; [apply Z.gtb_lt in Ev; lia |].
  reflexivity.
Qed.


(** C2: [store_gdbm_open] first asks the library for a read-write/create
    open of the path.  When that succeeds its descriptor is the handle and
    nothing else is asked; when it fails, one read-only open of the same
    path is asked and its result is the handle.  The handle is NULL
    exactly when both opens fail; with a NULL path nothing is asked and
    the handle is NULL. *)
Theorem C2_open_falls_back_to_read_only (p : string) (w : world) :
  let rw := gdbm_open p 4096 GDBM_WRCREAT 384 (w_gdbm w) in
  let ro := gdbm_open p 4096 GDBM_READER 384 rw.2 in
  let first := CallOpen p 4096 GDBM_WRCREAT 384 in
  let second := CallOpen p 4096 GDBM_READER 384 in
  let res := store_gdbm_open (Some p) w in
  w_mem res.2 = w_mem w
  /\ (forall db, rw.1 = Some db ->
        res.1 = Some db /\ w_gdbm res.2 = rw.2 /\ w_calls res.2 = w_calls w ++ [first])
  /\ (rw.1 = None ->
        res.1 = ro.1 /\ w_gdbm res.2 = ro.2
        /\ w_calls res.2 = w_calls w ++ [first; second])
  /\ (w_calls res.2 = w_calls w ++ [first; second] <-> rw.1 = None)
  /\ (res.1 = None <-> rw.1 = None /\ ro.1 = None)
  /\ store_gdbm_open None w = (None, w).
Proof.
  cbn zeta. unfold store_gdbm_open, bind, call_open, ret.
  destruct (gdbm_open p 4096 GDBM_WRCREAT 384 (w_gdbm w)) as [[db|] g] eqn:Erw; cbn.
  - repeat split; try congruence; try (intros [? ?]; congruence).
    all: try (intros db' [= <-]; done).
    intros Hc. apply app_inv_head in Hc. discriminate.
  - destruct (gdbm_open p 4096 GDBM_READER 384 g) as [ro g'] eqn:Ero; cbn.
    rewrite <- app_assoc. cbn.
    repeat split; try congruence; tauto.
Qed.

(** The guards of the three operations: a NULL handle or an oversize
    length ends the call at once, with the world as it was. *)
Lemma store_gdbm_store_refuses (store : StoreHandle) (key value : option addr)
    (klen vlen : Z) (w : world) :
  store = None \/ INT_MAX < klen \/ INT_MAX < vlen ->
  store_gdbm_store store key klen value vlen w = (-1, w).
Proof.
  unfold store_gdbm_store, ret.
  intros [-> | [Hk | Hv]]; [done | |]; destruct store as [db|]; try done.
  - apply Z.gtb_lt in Hk. by rewrite Hk.
  - apply Z.gtb_lt in Hv. rewrite Hv. by rewrite orb_true_r.
Qed.

Lemma store_gdbm_fetch_refuses (store : StoreHandle) (key : option addr)
    (klen vl : Z) (w : world) :
  store = None \/ INT_MAX < klen ->
  store_gdbm_fetch store key klen vl w = ((None, vl), w).
Proof.
  unfold store_gdbm_fetch, ret.
  intros [-> | Hk]; [done |]. destruct store as [db|]; try done.
  apply Z.gtb_lt in Hk. by rewrite Hk.
Qed.

Lemma store_gdbm_delete_record_refuses (store : StoreHandle) (key : option addr)
    (klen : Z) (w : world) :
  store = None \/ INT_MAX < klen ->
  store_gdbm_delete_record store key klen w = (-1, w).
Proof.
  unfold store_gdbm_delete_record, ret.
  intros [-> | Hk]; [done |]. destruct store as [db|]; try done.
  apply Z.gtb_lt in Hk. by rewrite Hk.
Qed.

(** C3: with a NULL handle, or a key or value longer than [INT_MAX],
    [store_gdbm_store], [store_gdbm_fetch] and [store_gdbm_delete_record]
    return their failure result (-1, a NULL pointer) and leave the world
    exactly as it was: memory and the state behind the library are
    untouched, and the call log shows no call into the library. *)
Theorem C3_capacity_and_null_handle_rejected (store : StoreHandle)
    (key value : option addr) (klen vlen vl : Z) (w : world) :
  (store = None \/ INT_MAX < klen \/ INT_MAX < vlen ->
     store_gdbm_store store key klen value vlen w = (-1, w))
  /\ (store = None \/ INT_MAX < klen ->
     store_gdbm_fetch store key klen vl w = ((None, vl), w))
  /\ (store = None \/ INT_MAX < klen ->
     store_gdbm_delete_record store key klen w = (-1, w)).
Proof.
  split; [| split].
  - apply store_gdbm_store_refuses.
  - apply store_gdbm_fetch_refuses.
  - apply store_gdbm_delete_record_refuses.
Qed.

(** C5: [store_gdbm_close] on a live handle closes the descriptor with one
    call of [gdbm_close] and clears the caller's handle; a second call on
    the cleared handle, a call on a NULL reference and a call on a
    reference that holds NULL change nothing. *)
Theorem C5_close_clears_and_is_idempotent (db : GDBM_FILE) (w : world) :
  let res := store_gdbm_close (Some (Some db)) w in
  res.1 = Some None
  /\ w_gdbm res.2 = gdbm_close db (w_gdbm w)
  /\ w_calls res.2 = w_calls w ++ [CallClose db]
  /\ w_mem res.2 = w_mem w
  /\ store_gdbm_close res.1 res.2 = (res.1, res.2)
  /\ store_gdbm_close None w = (None, w)
  /\ store_gdbm_close (Some None) w = (Some None, w).
Proof. cbn. repeat split. Qed.

End Adapter.

(** * The adapter over the reference library *)

Section OverRefGdbm.

Import RefGdbm.

Implicit Types (w : @world ref_gdbm) (m : memory) (s : state).

Lemma read_datum_block m (a : addr) (b : list byte) (n : Z) :
  m !! a = Some b -> 0 <= n <= Z.of_nat (length b) ->
  read_datum m {| dptr := Some a; dsize := n |} = Some (take (Z.to_nat n) b).
Proof.
  intros Ha Hn. unfold read_datum. cbn. rewrite Ha. cbn.
  rewrite bool_decide_eq_true_2 by done. reflexivity.
Qed.

Lemma read_datum_length m (d : datum) (k : list byte) :
  read_datum m d = Some k -> Z.of_nat (length k) = dsize d.
Proof.
  unfold read_datum. destruct (dptr d) as [a|]; [cbn | done].
  destruct (m !! a) as [b|]; [cbn | done].
  case_bool_decide as Hn; [| done]. intros [= <-].
  rewrite length_take. lia.
Qed.

(** A writer's [gdbm_store] with [GDBM_REPLACE] puts the content in place
    of whatever the key had. *)
Lemma ref_store_replace m s (dbf : positive) (d : descriptor) (f : db_file)
    (key content : datum) (k v : list byte) :
  opened s !! dbf = Some d -> d_writer d = true -> disk s !! d_path d = Some f ->
  read_datum m key = Some k -> read_datum m content = Some v ->
  ref_store dbf key content GDBM_REPLACE (m, s) =
    (0, (m, set_disk (<[d_path d := set_records (<[k := v]> (f_records f)) f]> (disk s)) s)).
Proof.
  intros Ho Hw Hd Hk Hv. unfold ref_store. cbn.
  rewrite Ho, Hw, Hd, Hk, Hv. reflexivity.
Qed.

(** A reader's [gdbm_store] fails and changes nothing. *)
Lemma ref_store_reader m s (dbf : positive) (d : descriptor) (key content : datum)
    (flag : store_flag) :
  opened s !! dbf = Some d -> d_writer d = false ->
  ref_store dbf key content flag (m, s) = (-1, (m, s)).
Proof.
  intros Ho Hw. unfold ref_store. cbn. rewrite Ho, Hw. reflexivity.
Qed.

Lemma ref_fetch_present m s (dbf : positive) (d : descriptor) (f : db_file)
    (key : datum) (k v : list byte) :
  opened s !! dbf = Some d -> disk s !! d_path d = Some f ->
  read_datum m key = Some k -> f_records f !! k = Some v ->
  ref_fetch dbf key (m, s) =
    ({| dptr := Some (fresh (dom m)); dsize := Z.of_nat (length v) |},
     (<[fresh (dom m) := v]> m, s)).
Proof.
  intros Ho Hd Hk Hv. unfold ref_fetch. cbn.
  rewrite Ho. cbn. rewrite Hd. cbn. rewrite Hk. cbn. rewrite Hv. reflexivity.
Qed.

Lemma ref_fetch_absent m s (dbf : positive) (d : descriptor) (f : db_file)
    (key : datum) (k : list byte) :
  opened s !! dbf = Some d -> disk s !! d_path d = Some f ->
  read_datum m key = Some k -> f_records f !! k = None ->
  ref_fetch dbf key (m, s) = (datum_zero, (m, s)).
Proof.
  intros Ho Hd Hk Hv. unfold ref_fetch. cbn.
  rewrite Ho. cbn. rewrite Hd. cbn. rewrite Hk. cbn. rewrite Hv. reflexivity.
Qed.

(** Storing through a writer's handle and fetching the key back. *)
Lemma store_then_fetch w (dbf : @GDBM_FILE ref_gdbm) (d : descriptor) (f : db_file)
    (kp vp kp' : addr) (kb vb kb' : list byte) (klen vlen vl : Z) :
  opened (w_gdbm w) !! dbf = Some d -> d_writer d = true ->
  disk (w_gdbm w) !! d_path d = Some f ->
  w_mem w !! kp = Some kb -> w_mem w !! vp = Some vb -> w_mem w !! kp' = Some kb' ->
  0 <= klen <= INT_MAX -> klen <= Z.of_nat (length kb) -> klen <= Z.of_nat (length kb') ->
  take (Z.to_nat klen) kb' = take (Z.to_nat klen) kb ->
  0 <= vlen <= INT_MAX -> vlen <= Z.of_nat (length vb) ->
  exists w1 f1,
    store_gdbm_store (Some dbf) (Some kp) klen (Some vp) vlen w = (0, w1)
    /\ w_mem w1 = w_mem w
    /\ opened (w_gdbm w1) = opened (w_gdbm w)
    /\ disk (w_gdbm w1) !! d_path d = Some f1
    /\ exists r w2,
         store_gdbm_fetch (Some dbf) (Some kp') klen vl w1 = ((Some r, vlen), w2)
         /\ w_mem w2 !! r = Some (take (Z.to_nat vlen) vb)
         /\ w_mem w1 !! r = None
         /\ w_gdbm w2 = w_gdbm w1.
Proof.
  intros Ho Hw Hd Hkp Hvp Hkp' Hklen Hkb Hkb' Hsame Hvlen Hvb.
  rewrite (store_gdbm_store_calls (G := ref_gdbm) dbf (Some kp) klen (Some vp) vlen w)
    by lia.
  cbn zeta. rewrite !to_int_small by lia.
  change (@gdbm_store ref_gdbm) with ref_store.
  rewrite (ref_store_replace _ _ _ d f _ _ (take (Z.to_nat klen) kb) (take (Z.to_nat vlen) vb))
    by (done || (apply read_datum_block; [done | lia])).
  eexists _, _. split; [reflexivity |]. cbn.
  split; [done |]. split; [done |]. split; [apply lookup_insert_eq |].
  rewrite (store_gdbm_fetch_calls (G := ref_gdbm) dbf (Some kp') klen vl) by lia.
  cbn zeta. rewrite to_int_small by lia. cbn.
  change (@gdbm_fetch ref_gdbm) with ref_fetch.
  erewrite ref_fetch_present.
  2: exact Ho.
  2: apply lookup_insert_eq.
  2: { apply read_datum_block; [exact Hkp' | lia]. }
  2: { cbn. rewrite Hsame. apply lookup_insert_eq. }
  eexists _, _. split.
  - rewrite length_take. cbn.
    replace (Z.of_nat (Z.to_nat vlen `min` length vb)) with vlen by lia.
    rewrite to_size_t_small by lia. reflexivity.
  - cbn. split; [apply lookup_insert_eq |]. split; [| done].
    apply not_elem_of_dom. apply is_fresh.
Qed.

(** Storing through a reader's handle fails: the result is -1 and only
    the call log grows. *)
Lemma store_on_reader_fails w (dbf : @GDBM_FILE ref_gdbm) (d : descriptor)
    (key value : option addr) (klen vlen : Z) :
  opened (w_gdbm w) !! dbf = Some d -> d_writer d = false ->
  0 <= klen <= INT_MAX -> 0 <= vlen <= INT_MAX ->
  store_gdbm_store (Some dbf) key klen value vlen w =
    (-1, {| w_mem := w_mem w; w_gdbm := w_gdbm w;
            w_calls := w_calls w ++
              [CallStore dbf {| dptr := key; dsize := klen |}
                 {| dptr := value; dsize := vlen |} GDBM_REPLACE] |}).
Proof.
  intros Ho Hw Hklen Hvlen.
  rewrite (store_gdbm_store_calls (G := ref_gdbm) dbf key klen value vlen w) by lia.
  cbn zeta. rewrite !to_int_small by lia.
  change (@gdbm_store ref_gdbm) with ref_store.
  by rewrite (ref_store_reader _ _ dbf d).
Qed.

End OverRefGdbm.

Section OverRefGdbmClaims.

Import RefGdbm.

(** Opening the cache path where the file can be created yields a writer
    on the new, empty file. *)
Lemma opened_creatable_is_writer :
  let res := Scenario.opened_in Scenario.world_creatable in
  res.1 = Some 1%positive
  /\ opened (w_gdbm res.2) !! 1%positive = Some (Descriptor Scenario.cache_path true)
  /\ disk (w_gdbm res.2) !! Scenario.cache_path = Some (new_file 384)
  /\ w_mem res.2 = Scenario.mem0.
Proof. vm_compute. repeat split. Qed.

(** C1 (amended): through a handle opened read-write on a database file,
    for a key and values whose buffers hold at least as many bytes as the
    lengths say and whose lengths are at most [INT_MAX]: the store
    returns 0 and the fetch that follows returns a block holding exactly
    the bytes of the value, with its length; when a second value is then
    stored under the key, the fetch returns exactly the second value,
    whatever the file held before. *)
Theorem C1_store_fetch_roundtrip_on_writer (w : @world ref_gdbm)
    (dbf : @GDBM_FILE ref_gdbm) (d : descriptor) (f : db_file)
    (kp vp1 vp2 : addr) (kb vb1 vb2 : list byte) (klen vlen1 vlen2 vl : Z) :
  opened (w_gdbm w) !! dbf = Some d -> d_writer d = true ->
  disk (w_gdbm w) !! d_path d = Some f ->
  w_mem w !! kp = Some kb -> 0 <= klen <= INT_MAX -> klen <= Z.of_nat (length kb) ->
  w_mem w !! vp1 = Some vb1 -> 0 <= vlen1 <= INT_MAX -> vlen1 <= Z.of_nat (length vb1) ->
  w_mem w !! vp2 = Some vb2 -> 0 <= vlen2 <= INT_MAX -> vlen2 <= Z.of_nat (length vb2) ->
  (exists w1 r w2,
     store_gdbm_store (Some dbf) (Some kp) klen (Some vp1) vlen1 w = (0, w1)
     /\ store_gdbm_fetch (Some dbf) (Some kp) klen vl w1 = ((Some r, vlen1), w2)
     /\ w_mem w2 !! r = Some (take (Z.to_nat vlen1) vb1))
  /\ (exists w1 w2 r w3,
     store_gdbm_store (Some dbf) (Some kp) klen (Some vp1) vlen1 w = (0, w1)
     /\ store_gdbm_store (Some dbf) (Some kp) klen (Some vp2) vlen2 w1 = (0, w2)
     /\ store_gdbm_fetch (Some dbf) (Some kp) klen vl w2 = ((Some r, vlen2), w3)
     /\ w_mem w3 !! r = Some (take (Z.to_nat vlen2) vb2)).
Proof.
  intros Ho Hw Hd Hkp Hklen Hkb Hv1 Hvlen1 Hvb1 Hv2 Hvlen2 Hvb2.
  destruct (store_then_fetch w dbf d f kp vp1 kp kb vb1 kb klen vlen1 vl)
    as (w1 & f1 & Hs1 & Hm1 & Ho1 & Hd1 & r & w2 & Hf1 & Hr1 & _); try done.
  split.
  - by exists w1, r, w2.
  - destruct (store_then_fetch w1 dbf d f1 kp vp2 kp kb vb2 kb klen vlen2 vl)
      as (w2' & f2 & Hs2 & _ & _ & _ & r' & w3 & Hf2 & Hr2 & _);
      rewrite ?Hm1, ?Ho1; try done.
    by exists w1, w2', r', w3.
Qed.

(** The round trip in the world where the cache file is created: "xyz123"
    stored under "abc", then "old" stored under "abc". *)
Lemma C1_store_fetch_roundtrip_on_writer_witness :
  let w := (Scenario.opened_in Scenario.world_creatable).2 in
  (exists w1 r w2,
     store_gdbm_store (Some 1%positive) (Some 1%positive) 3 (Some 2%positive) 6 w = (0, w1)
     /\ store_gdbm_fetch (Some 1%positive) (Some 1%positive) 3 0 w1 = ((Some r, 6), w2)
     /\ w_mem w2 !! r = Some (take (Z.to_nat 6) Scenario.val_xyz123))
  /\ (exists w1 w2 r w3,
     store_gdbm_store (Some 1%positive) (Some 1%positive) 3 (Some 2%positive) 6 w = (0, w1)
     /\ store_gdbm_store (Some 1%positive) (Some 1%positive) 3 (Some 3%positive) 3 w1 = (0, w2)
     /\ store_gdbm_fetch (Some 1%positive) (Some 1%positive) 3 0 w2 = ((Some r, 3), w3)
     /\ w_mem w3 !! r = Some (take (Z.to_nat 3) Scenario.val_old)).
Proof.
  apply (C1_store_fetch_roundtrip_on_writer
           (Scenario.opened_in Scenario.world_creatable).2 1%positive
           (Descriptor Scenario.cache_path true) (new_file 384)
           1%positive 2%positive 3%positive
           Scenario.key_abc Scenario.val_xyz123 Scenario.val_old 3 6 3 0);
    vm_compute; try reflexivity; try (split; discriminate); try discriminate.
Defined.

(** Against C1 as stated: on a handle that [store_gdbm_open] obtained by
    its read-only fallback, the store of "xyz123" under "abc" returns -1
    and the fetch returns "old", the value the file had. *)
Lemma C1_counterexample_read_only_handle :
  let opened := Scenario.opened_in Scenario.world_read_only in
  let stored :=
    store_gdbm_store opened.1 (Some 1%positive) 3 (Some 2%positive) 6 opened.2 in
  let fetched := store_gdbm_fetch opened.1 (Some 1%positive) 3 0 stored.2 in
  opened.1 = Some 1%positive
  /\ w_calls opened.2 = [CallOpen Scenario.cache_path 4096 GDBM_WRCREAT 384;
                         CallOpen Scenario.cache_path 4096 GDBM_READER 384]
  /\ stored.1 = -1
  /\ fetched.1 = (Some 4%positive, 3)
  /\ w_mem fetched.2 !! 4%positive = Some Scenario.val_old
  /\ Scenario.val_old <> Scenario.val_xyz123.
Proof. cbn zeta. repeat split; (reflexivity || discriminate). Qed.

(** C3 at an input: a key of 2^31 bytes is refused by all three, before
    anything is done. *)
Lemma C3_capacity_and_null_handle_rejected_witness :
  let w := (Scenario.opened_in Scenario.world_creatable).2 in
  store_gdbm_store (Some 1%positive) (Some 1%positive) 2147483648 (Some 2%positive) 6 w
    = (-1, w)
  /\ store_gdbm_fetch (Some 1%positive) (Some 1%positive) 2147483648 7 w = ((None, 7), w)
  /\ store_gdbm_delete_record (Some 1%positive) (Some 1%positive) 2147483648 w = (-1, w).
Proof.
  pose proof (C3_capacity_and_null_handle_rejected (G := ref_gdbm)
                (Some 1%positive) (Some 1%positive) (Some 2%positive) 2147483648 6 7
                (Scenario.opened_in Scenario.world_creatable).2) as (Hs & Hf & Hd).
  cbn zeta. split; [| split].
  - apply Hs. right. left. unfold INT_MAX. lia.
  - apply Hf. right. unfold INT_MAX. lia.
  - apply Hd. right. unfold INT_MAX. lia.
Defined.

(** C4 (amended): with a NULL handle or a key longer than [INT_MAX],
    [store_gdbm_fetch] returns a NULL pointer, leaves [*vlen] holding what
    it held, and changes nothing (no call into the library is logged).
    With a key that is absent from the database of a live handle it
    returns a NULL pointer and sets [*vlen] to 0, after one call of
    [gdbm_fetch] that leaves memory and the database as they were. *)
Theorem C4_fetch_null_results :
  (forall (G : GdbmLib) (store : StoreHandle) (key : option addr) (klen vl : Z)
          (w : world),
     store = None \/ INT_MAX < klen ->
     store_gdbm_fetch store key klen vl w = ((None, vl), w))
  /\ (forall (w : @world ref_gdbm) (dbf : @GDBM_FILE ref_gdbm) (d : descriptor)
             (f : db_file) (key : option addr) (klen vl : Z) (k : list byte),
     opened (w_gdbm w) !! dbf = Some d ->
     disk (w_gdbm w) !! d_path d = Some f ->
     0 <= klen <= INT_MAX ->
     read_datum (w_mem w) {| dptr := key; dsize := klen |} = Some k ->
     f_records f !! k = None ->
     store_gdbm_fetch (Some dbf) key klen vl w =
       ((None, 0),
        {| w_mem := w_mem w; w_gdbm := w_gdbm w;
           w_calls := w_calls w ++ [CallFetch dbf {| dptr := key; dsize := klen |}] |})).
Proof.
  split.
  - intros G store key klen vl w H.
    by apply store_gdbm_fetch_refuses.
  - intros w dbf d f key klen vl k Ho Hd Hklen Hk Hnone.
    rewrite (store_gdbm_fetch_calls (G := ref_gdbm) dbf key klen vl w) by lia.
    cbn zeta. rewrite to_int_small by lia.
    change (@gdbm_fetch ref_gdbm) with ref_fetch.
    by rewrite (ref_fetch_absent _ _ dbf d f _ k).
Qed.

(** The three cases in the world where the cache file has just been
    created (and is empty), with [*vlen] holding 5 at the call. *)
Lemma C4_fetch_null_results_witness :
  let w := (Scenario.opened_in Scenario.world_creatable).2 in
  store_gdbm_fetch None (Some 1%positive) 3 5 w = ((None, 5), w)
  /\ store_gdbm_fetch (Some 1%positive) (Some 1%positive) 2147483648 5 w = ((None, 5), w)
  /\ store_gdbm_fetch (Some 1%positive) (Some 1%positive) 3 5 w =
       ((None, 0),
        {| w_mem := w_mem w; w_gdbm := w_gdbm w;
           w_calls := w_calls w ++
             [CallFetch 1%positive {| dptr := Some 1%positive; dsize := 3 |}] |}).
Proof.
  pose proof C4_fetch_null_results as (Hguard & Habsent).
  cbn zeta. split; [| split].
  - apply (Hguard ref_gdbm). by left.
  - apply (Hguard ref_gdbm). right. unfold INT_MAX. lia.
  - apply (Habsent _ 1%positive (Descriptor Scenario.cache_path true) (new_file 384)
             (Some 1%positive) 3 5 Scenario.key_abc);
      vm_compute; try reflexivity; split; discriminate.
Defined.

(** Against C4 as stated: for a NULL handle and for an oversize key,
    [*vlen] held 5 at the call and holds 5, not 0, at the return. *)
Lemma C4_counterexample_vlen_not_reported :
  let w := (Scenario.opened_in Scenario.world_creatable).2 in
  (store_gdbm_fetch None (Some 1%positive) 3 5 w).1 = (None, 5)
  /\ (store_gdbm_fetch (Some 1%positive) (Some 1%positive) 2147483648 5 w).1 = (None, 5)
  /\ (None, 5) <> (@None addr, 0).
Proof. cbn zeta. repeat split; (reflexivity || discriminate). Qed.

End OverRefGdbmClaims.

(** * Properties of the delimiter validator *)

Section ValidatorProperties.

Import Maildir.

Variable isalnum : ascii -> bool.

Abbreviation validator := (maildir_field_delimiter_validator isalnum).

(** The four characters [strchr] looks for, and the NUL it finds at the
    end of its string. *)
Lemma strchr_special (c : ascii) :
  strchr "-.\/" c = None <->
  c <> "-"%char /\ c <> "."%char /\ c <> "\"%char /\ c <> "/"%char /\ c <> NUL.
Proof.
  cbn. repeat (case_decide; [subst; split; [discriminate | intros; tauto] |]).
  repeat case_decide; try discriminate; subst; cbn; split; try tauto; try done.
  all: try (intros; repeat split; congruence).
Qed.

#[local] Arguments strchr : simpl never.

Lemma strlen_one_deref (s : string) : strlen s = 1%nat -> deref s <> NUL.
Proof. destruct s as [|c s']; cbn; [done |]. by case_decide. Qed.

Lemma strlen_one_c_str (s : string) :
  strlen s = 1%nat -> c_str s = String (deref s) EmptyString.
Proof.
  destruct s as [|c s']; cbn; [done |]. case_decide; [done |].
  intros [= Hs]. f_equal. destruct s' as [|c' s'']; cbn in *; [done |].
  by case_decide.
Qed.

(** The validator accepts exactly when the three tests pass and the static
    is not set; it then sets the static iff the first characters of the
    value and of the initial value differ. *)
Lemma validator_success (changed : bool) (cdef : ConfigDef) (value err : string) :
  (validator changed cdef value err).1.1 = CSR_SUCCESS <->
  strlen value = 1%nat /\ isalnum (deref value) = false
  /\ strchr "-.\/" (deref value) = None /\ changed = false.
Proof.
  unfold maildir_field_delimiter_validator.
  destruct (Nat.eqb_spec (strlen value) 1) as [Hl | Hl]; cbn; [| split; [done | tauto]].
  destruct (isalnum (deref value)); cbn; [split; [done | intros (_ & ? & _); done] |].
  destruct (strchr "-.\/" (deref value)) as [n|] eqn:Hs.
  - rewrite bool_decide_eq_true_2 by eauto. split; [done | intros (_ & _ & ? & _); done].
  - rewrite bool_decide_eq_false_2 by (intros [? ?]; done).
    destruct changed; [split; [done | intros (_ & _ & _ & ?); done] |].
    case_bool_decide; cbn; tauto.
Qed.

Lemma validator_static (changed : bool) (cdef : ConfigDef) (value err : string) :
  (validator changed cdef value err).2 =
    if decide ((validator changed cdef value err).1.1 = CSR_SUCCESS
               /\ deref value <> deref (initial cdef))
    then true else changed.
Proof.
  unfold maildir_field_delimiter_validator.
  destruct (strlen value =? 1)%nat; cbn; [| by case_decide as H; [destruct H |]].
  destruct (isalnum (deref value) || _); cbn; [by case_decide as H; [destruct H |] |].
  destruct changed; cbn; [by case_decide |].
  case_bool_decide as Hd; cbn; case_decide as H; try done.
  - by destruct H.
  - exfalso. apply H. done.
Qed.

(** Once the static is set, every validation is refused and the static
    stays set. *)
Lemma validator_locked (cdef : ConfigDef) (value err : string) :
  (validator true cdef value err).1.1 = CSR_ERR_INVALID
  /\ (validator true cdef value err).2 = true.
Proof.
  unfold maildir_field_delimiter_validator.
  destruct (strlen value =? 1)%nat; cbn; [| done].
  by destruct (isalnum (deref value) || _).
Qed.

Lemma validations_locked (requests : list (ConfigDef * string)) :
  Forall (fun rc => rc = CSR_ERR_INVALID) (validations isalnum true requests).1
  /\ (validations isalnum true requests).2 = true
  /\ length (validations isalnum true requests).1 = length requests.
Proof.
  induction requests as [| [cdef v] rest IH]; cbn; [by repeat split |].
  destruct (validator_locked cdef v "") as [Hrc Hst].
  destruct (validator true cdef v "") as [[rc e] ch]. cbn in Hrc, Hst. subst.
  destruct (validations isalnum true rest) as [rcs ch']. cbn in *.
  destruct IH as (IH1 & IH2 & IH3). repeat split; [by constructor | done | by f_equal].
Qed.

(** C7: the static makes the delimiter settable once.  A value is accepted
    only if it is exactly one character long and that character is
    neither alphanumeric nor one of - . \ / ; an accepted value whose
    character differs from that of the initial value sets the static (for
    an initial value of one character, as the registered ":" is, that is
    every accepted value other than the initial one); and from then on
    every validation, whatever the definition and the value offered,
    returns [CSR_ERR_INVALID] and leaves the static set. *)
Theorem C7_delimiter_settable_once :
  (forall changed cdef value err,
     (validator changed cdef value err).1.1 = CSR_SUCCESS ->
     strlen value = 1%nat /\ isalnum (deref value) = false
     /\ deref value <> "-"%char /\ deref value <> "."%char
     /\ deref value <> "\"%char /\ deref value <> "/"%char)
  /\ (forall changed cdef value err,
     (validator changed cdef value err).1.1 = CSR_SUCCESS ->
     deref value <> deref (initial cdef)
     \/ (strlen (initial cdef) = 1%nat /\ c_str value <> c_str (initial cdef)) ->
     let changed' := (validator changed cdef value err).2 in
     changed' = true
     /\ forall requests,
          Forall (fun rc => rc = CSR_ERR_INVALID) (validations isalnum changed' requests).1
          /\ length (validations isalnum changed' requests).1 = length requests
          /\ (validations isalnum changed' requests).2 = true).
Proof.
  split.
  - intros changed cdef value err Hok.
    apply validator_success in Hok as (Hl & Ha & Hs & _).
    apply strchr_special in Hs. tauto.
  - intros changed cdef value err Hok Hdiff.
    assert (Hd : deref value <> deref (initial cdef)).
    { destruct Hdiff as [Hd | [Hl Hne]]; [done |].
      intros Heq. apply Hne.
      apply validator_success in Hok as (Hv & _).
      rewrite (strlen_one_c_str value), (strlen_one_c_str (initial cdef)) by done.
      by rewrite Heq. }
    cbn zeta. rewrite validator_static. rewrite decide_True by done.
    split; [done |]. intros requests.
    destruct (validations_locked requests) as (H1 & H2 & H3). done.
Qed.

(** C10: the static is set only by a validation that accepts a value whose
    character differs from that of the initial value (so the value is not
    the initial one).  Validating the initial value, when it is itself an
    admissible delimiter as the registered ":" is, succeeds any number of
    times in a row while the static is unset, and leaves it unset. *)
Theorem C10_initial_value_never_locks :
  (forall changed cdef value err,
     (validator changed cdef value err).2 = true -> changed = false ->
     (validator changed cdef value err).1.1 = CSR_SUCCESS
     /\ deref value <> deref (initial cdef)
     /\ c_str value <> c_str (initial cdef))
  /\ (forall cdef (n : nat),
     strlen (initial cdef) = 1%nat -> isalnum (deref (initial cdef)) = false ->
     strchr "-.\/" (deref (initial cdef)) = None ->
     validations isalnum false (replicate n (cdef, initial cdef))
       = (replicate n CSR_SUCCESS, false)).
Proof.
  split.
  - intros changed cdef value err Hset ->.
    rewrite validator_static in Hset.
    case_decide as H; [| done]. destruct H as [Hok Hd].
    split; [done |]. split; [done |].
    intros Heq. apply Hd.
    destruct value as [|c v], (initial cdef) as [|c' i]; cbn in *; try done;
      repeat case_decide; subst; try done; congruence.
  - intros cdef n Hl Ha Hs.
    assert (Hok : (validator false cdef (initial cdef) "").1.1 = CSR_SUCCESS)
      by (by apply validator_success).
    assert (Hst : (validator false cdef (initial cdef) "").2 = false).
    { rewrite validator_static. by rewrite decide_False by (intros [_ ?]; done). }
    induction n as [| n IH]; cbn; [done |].
    destruct (validator false cdef (initial cdef) "") as [[rc e] ch].
    cbn in Hok, Hst. subst. by rewrite IH.
Qed.

End ValidatorProperties.

(** C7 at an input, in the "C" locale: ";" is accepted and sets the
    static, after which ":" and "+" are both refused. *)
Lemma C7_delimiter_settable_once_witness :
  let v := Maildir.maildir_field_delimiter_validator Maildir.isalnum_C in
  let cdef := Maildir.maildir_field_delimiter_def in
  (v false cdef ";" "").2 = true
  /\ forall requests,
       Forall (fun rc => rc = Maildir.CSR_ERR_INVALID)
         (Maildir.validations Maildir.isalnum_C (v false cdef ";" "").2 requests).1
       /\ length (Maildir.validations Maildir.isalnum_C (v false cdef ";" "").2 requests).1
          = length requests
       /\ (Maildir.validations Maildir.isalnum_C (v false cdef ";" "").2 requests).2 = true.
Proof.
  cbn zeta.
  apply (proj2 (C7_delimiter_settable_once Maildir.isalnum_C) false
           Maildir.maildir_field_delimiter_def ";"%string ""%string).
  - reflexivity.
  - left. vm_compute. discriminate.
Defined.

(** C10 at an input, in the "C" locale: the registered initial value ":"
    validated three times in a row. *)
Lemma C10_initial_value_never_locks_witness :
  Maildir.validations Maildir.isalnum_C false
    (replicate 3 (Maildir.maildir_field_delimiter_def, ":"%string))
  = (replicate 3 Maildir.CSR_SUCCESS, false).
Proof.
  apply (proj2 (C10_initial_value_never_locks Maildir.isalnum_C)
           Maildir.maildir_field_delimiter_def 3%nat); reflexivity.
Defined.

(** * Properties of the shared index data *)

Section SharedDataProperties.

Import Index.

Variable mview_mailbox : ptr -> ptr.
Variable Mailbox_account : positive -> ptr.
Variable Email_sequence : positive -> Z.
Variable NeoMutt_sub : ptr.
Variables NT_INDEX_NO_FLAGS NT_INDEX_SUBSET NT_INDEX_ACCOUNT : Z.
Variables NT_INDEX_MVIEW NT_INDEX_MAILBOX NT_INDEX_EMAIL : Z.

Abbreviation set_mview :=
  (index_shared_data_set_mview mview_mailbox Mailbox_account NeoMutt_sub
     NT_INDEX_NO_FLAGS NT_INDEX_SUBSET NT_INDEX_ACCOUNT NT_INDEX_MVIEW
     NT_INDEX_MAILBOX NT_INDEX_EMAIL).

Lemma ptr_ne_spec (p q : ptr) : ptr_ne p q = true <-> p <> q.
Proof.
  unfold ptr_ne. case_bool_decide; cbn; split; done.
Qed.

Lemma ptr_ne_false (p q : ptr) : ptr_ne p q = false <-> p = q.
Proof.
  unfold ptr_ne. case_bool_decide; cbn; split; done.
Qed.

(** What [index_shared_data_set_mview] leaves in the fields of the shared
    data. *)
Lemma set_mview_fields (sh : IndexSharedData) (mv : ptr) :
  exists sh' ns,
    set_mview (Some sh) mv = (Some sh', ns)
    /\ mailbox_view sh' = mv
    /\ mailbox sh' = mview_mailbox mv
    /\ email sh' = (if ptr_ne (mailbox sh) (mview_mailbox mv) then None else email sh)
    /\ email_seq sh' = (if ptr_ne (mailbox sh) (mview_mailbox mv) then 0 else email_seq sh)
    /\ notify sh' = notify sh.
Proof.
  unfold index_shared_data_set_mview.
  destruct (ptr_ne (mailbox_view sh) mv) eqn:Ev;
    destruct (ptr_ne (mailbox sh) (mview_mailbox mv)) eqn:Em; cbn;
    rewrite ?Em; cbn;
    repeat match goal with
      | |- context [ptr_ne ?a ?b] => destruct (ptr_ne a b) eqn:?; cbn
      | |- context [negb (?a =? ?b)] => destruct (a =? b); cbn
      end;
    eexists _, _; (split; [reflexivity |]); cbn; repeat split; try done.
  all: try (apply not_true_iff_false in Ev; rewrite ptr_ne_spec in Ev;
            by destruct (decide (mailbox_view sh = mv)) as [? | ?]; [| destruct Ev]).
  all: try (apply not_true_iff_false in Em; rewrite ptr_ne_spec in Em;
            by destruct (decide (mailbox sh = mview_mailbox mv)) as [? | ?]; [| destruct Em]).
Qed.

(** C8: a call of [index_shared_data_set_mview] leaves the shared mailbox
    equal to the mailbox of the new view.  When that mailbox differs from
    the one the shared data held, the shared email is NULL and its
    sequence 0 at the return; otherwise both are as they were.  So an
    email held at the return was held at the call for the same mailbox,
    and any relation between the shared email and the shared mailbox
    that held at the call holds at the return.  With NULL shared data
    nothing is done. *)
Theorem C8_set_mview_resets_email (sh : IndexSharedData) (mv : ptr) :
  (exists sh' ns,
     set_mview (Some sh) mv = (Some sh', ns)
     /\ mailbox sh' = mview_mailbox mv
     /\ (mailbox sh <> mview_mailbox mv -> email sh' = None /\ email_seq sh' = 0)
     /\ (mailbox sh = mview_mailbox mv ->
           email sh' = email sh /\ email_seq sh' = email_seq sh)
     /\ (forall e, email sh' = Some e -> email sh = Some e /\ mailbox sh' = mailbox sh)
     /\ (forall belongs : positive -> ptr -> Prop,
           (forall e, email sh = Some e -> belongs e (mailbox sh)) ->
           forall e, email sh' = Some e -> belongs e (mailbox sh')))
  /\ set_mview None mv = (None, []).
Proof.
  split; [| reflexivity].
  destruct (set_mview_fields sh mv) as (sh' & ns & Heq & _ & Hm & He & Hs & _).
  exists sh', ns. split; [done |]. split; [done |].
  destruct (ptr_ne (mailbox sh) (mview_mailbox mv)) eqn:Em.
  - apply ptr_ne_spec in Em. rewrite He, Hs.
    split; [done |]. split; [done |]. split; [done |]. done.
  - apply ptr_ne_false in Em.
    rewrite He, Hs, Hm, <- Em.
    split; [done |]. split; [done |]. split; [done |].
    intros belongs Hb e Hin. by apply Hb.
Qed.

(** C9: [index_shared_data_is_cur_email] compares sequence numbers only.
    With shared data it answers true exactly when the email's sequence is
    the shared email sequence, also for an email that is not the shared
    one (and false for the shared one when its sequence has moved on);
    with NULL shared data it answers false. *)
Theorem C9_is_cur_email_by_sequence :
  (forall (sh : IndexSharedData) (e : positive),
     index_shared_data_is_cur_email Email_sequence (Some sh) e = true
     <-> Email_sequence e = email_seq sh)
  /\ (forall (sh : IndexSharedData) (e : positive),
     email sh <> Some e -> Email_sequence e = email_seq sh ->
     index_shared_data_is_cur_email Email_sequence (Some sh) e = true)
  /\ (forall (sh : IndexSharedData) (e : positive),
     email sh = Some e -> Email_sequence e <> email_seq sh ->
     index_shared_data_is_cur_email Email_sequence (Some sh) e = false)
  /\ (forall e : positive, index_shared_data_is_cur_email Email_sequence None e = false).
Proof.
  unfold index_shared_data_is_cur_email.
  split; [| split; [| split]].
  - intros sh e. rewrite Z.eqb_eq. split; congruence.
  - intros sh e _ Hseq. apply Z.eqb_eq. congruence.
  - intros sh e _ Hseq. apply Z.eqb_neq. congruence.
  - reflexivity.
Qed.

End SharedDataProperties.

(** * The properties at concrete inputs *)

(** C2 where the cache file may only be read: the read-write open fails,
    the read-only open is asked next and gives the handle. *)
Lemma C2_open_falls_back_to_read_only_witness :
  let res := store_gdbm_open (Some Scenario.cache_path) Scenario.world_read_only in
  res.1 = Some 1%positive
  /\ w_calls res.2 = [CallOpen Scenario.cache_path 4096 GDBM_WRCREAT 384;
                      CallOpen Scenario.cache_path 4096 GDBM_READER 384].
Proof.
  cbn zeta.
  destruct (C2_open_falls_back_to_read_only (G := RefGdbm.ref_gdbm)
              Scenario.cache_path Scenario.world_read_only)
    as (_ & _ & Hro & _).
  destruct Hro as (Hh & _ & Hc); [reflexivity |].
  split; [rewrite Hh; reflexivity | rewrite Hc; reflexivity].
Defined.

(** The three outcomes of [store_gdbm_open]: a writer where the file can
    be created, a reader where it may only be read, NULL after two
    attempts where it cannot be had. *)
Lemma store_gdbm_open_outcomes :
  (store_gdbm_open (Some Scenario.cache_path) Scenario.world_creatable).1 = Some 1%positive
  /\ length (w_calls (store_gdbm_open (Some Scenario.cache_path)
                        Scenario.world_creatable).2) = 1%nat
  /\ (store_gdbm_open (Some Scenario.cache_path) Scenario.world_read_only).1 = Some 1%positive
  /\ (store_gdbm_open (Some Scenario.cache_path) Scenario.world_inaccessible).1 = None
  /\ length (w_calls (store_gdbm_open (Some Scenario.cache_path)
                        Scenario.world_inaccessible).2) = 2%nat.
Proof. repeat split. Qed.

(** C5 on the handle of the freshly created cache file: the descriptor is
    gone from the library's table after the close. *)
Lemma C5_close_clears_and_is_idempotent_witness :
  let w := (Scenario.opened_in Scenario.world_creatable).2 in
  let res := store_gdbm_close (Some (Some 1%positive)) w in
  res.1 = Some None
  /\ RefGdbm.opened (w_gdbm res.2) !! 1%positive = None
  /\ store_gdbm_close res.1 res.2 = (res.1, res.2).
Proof.
  cbn zeta.
  destruct (C5_close_clears_and_is_idempotent (G := RefGdbm.ref_gdbm) 1%positive
              (Scenario.opened_in Scenario.world_creatable).2)
    as (Hr & _ & _ & _ & Hi & _).
  split; [exact Hr |]. split; [reflexivity | exact Hi].
Defined.

(** C8 at an input: the shared data holds mailbox 10 with email 100
    (sequence 7); the view 2 is of mailbox 20, so the email is dropped. *)
Lemma C8_set_mview_resets_email_witness :
  let mview_mailbox := fun mv : Index.ptr =>
    match mv with
    | Some 1%positive => Some 10%positive
    | Some 2%positive => Some 20%positive
    | _ => None
    end in
  let sh := {| Index.sub := Some 5%positive; Index.account := Some 6%positive;
               Index.mailbox_view := Some 1%positive; Index.mailbox := Some 10%positive;
               Index.email := Some 100%positive; Index.email_seq := 7;
               Index.notify := Some 9%positive |} in
  exists sh' ns,
    Index.index_shared_data_set_mview mview_mailbox (fun _ => Some 6%positive)
      (Some 5%positive) 0 4 8 16 32 64 (Some sh) (Some 2%positive) = (Some sh', ns)
    /\ Index.mailbox sh' = Some 20%positive
    /\ Index.email sh' = None /\ Index.email_seq sh' = 0.
Proof.
  cbn zeta.
  destruct (C8_set_mview_resets_email
              (fun mv : Index.ptr =>
                 match mv with
                 | Some 1%positive => Some 10%positive
                 | Some 2%positive => Some 20%positive
                 | _ => None
                 end)
              (fun _ => Some 6%positive) (Some 5%positive) 0 4 8 16 32 64
              {| Index.sub := Some 5%positive; Index.account := Some 6%positive;
                 Index.mailbox_view := Some 1%positive; Index.mailbox := Some 10%positive;
                 Index.email := Some 100%positive; Index.email_seq := 7;
                 Index.notify := Some 9%positive |}
              (Some 2%positive))
    as [(sh' & ns & Heq & Hm & Hreset & _) _].
  exists sh', ns. split; [exact Heq |]. split; [exact Hm |].
  apply Hreset. discriminate.
Defined.

(** C9 at an input: the shared email is the one at address 100, shared
    sequence 7; the email at address 200 has sequence 7 too and is
    answered to be current. *)
Lemma C9_is_cur_email_by_sequence_witness :
  let sh := {| Index.sub := None; Index.account := None; Index.mailbox_view := None;
               Index.mailbox := None; Index.email := Some 100%positive;
               Index.email_seq := 7; Index.notify := None |} in
  Index.index_shared_data_is_cur_email (fun _ => 7) (Some sh) 200%positive = true.
Proof.
  cbn zeta.
  apply (proj1 (proj2 (C9_is_cur_email_by_sequence (fun _ => 7)))).
  - discriminate.
  - reflexivity.
Defined.

(** * Further properties of the store adapter *)

Section AdapterMore.

Context `{G : GdbmLib}.

Lemma app_singleton_ne {A : Type} (l : list A) (x : A) : l ++ [x] <> l.
Proof.
  intros H. apply (f_equal length) in H. rewrite length_app in H. cbn in H. lia.
Qed.

(** X1: through a live handle, with lengths of 0 to [INT_MAX],
    [store_gdbm_store], [store_gdbm_fetch] and [store_gdbm_delete_record]
    each make exactly one call into the library, in which each datum
    carries the caller's pointer and exactly the caller's length, and the
    store mode is [GDBM_REPLACE]; they return what the library returned.
    For lengths that are not negative, a call is logged exactly when the
    handle is not NULL and no length is above [INT_MAX]: the library is
    never handed a truncated or a negative length. *)
Theorem X1_one_call_with_exact_lengths (db : GDBM_FILE) (key value : option addr)
    (klen vlen vl : Z) (w : world) :
  0 <= klen <= INT_MAX -> 0 <= vlen <= INT_MAX ->
  store_gdbm_store (Some db) key klen value vlen w =
    (let dkey := {| dptr := key; dsize := klen |} in
     let databuf := {| dptr := value; dsize := vlen |} in
     let '(rc, (m, g)) := gdbm_store db dkey databuf GDBM_REPLACE (w_mem w, w_gdbm w) in
     (rc, {| w_mem := m; w_gdbm := g;
             w_calls := w_calls w ++ [CallStore db dkey databuf GDBM_REPLACE] |}))
  /\ store_gdbm_fetch (Some db) key klen vl w =
    (let dkey := {| dptr := key; dsize := klen |} in
     let '(d, (m, g)) := gdbm_fetch db dkey (w_mem w, w_gdbm w) in
     ((dptr d, to_size_t (dsize d)),
      {| w_mem := m; w_gdbm := g; w_calls := w_calls w ++ [CallFetch db dkey] |}))
  /\ store_gdbm_delete_record (Some db) key klen w =
    (let dkey := {| dptr := key; dsize := klen |} in
     let '(rc, (m, g)) := gdbm_delete db dkey (w_mem w, w_gdbm w) in
     (rc, {| w_mem := m; w_gdbm := g; w_calls := w_calls w ++ [CallDelete db dkey] |}))
  /\ (forall (store : StoreHandle) (klen' vlen' : Z), 0 <= klen' -> 0 <= vlen' ->
        (w_calls (store_gdbm_store store key klen' value vlen' w).2 <> w_calls w
         <-> is_Some store /\ klen' <= INT_MAX /\ vlen' <= INT_MAX)
        /\ (w_calls (store_gdbm_fetch store key klen' vl w).2 <> w_calls w
            <-> is_Some store /\ klen' <= INT_MAX)
        /\ (w_calls (store_gdbm_delete_record store key klen' w).2 <> w_calls w
            <-> is_Some store /\ klen' <= INT_MAX)).
Proof.
  intros Hk Hv.
  assert (Hdel : forall (db' : GDBM_FILE) (k' : Z), 0 <= k' <= INT_MAX ->
            store_gdbm_delete_record (Some db') key k' w =
              (let dkey := {| dptr := key; dsize := k' |} in
               let '(rc, (m, g)) := gdbm_delete db' dkey (w_mem w, w_gdbm w) in
               (rc, {| w_mem := m; w_gdbm := g;
                       w_calls := w_calls w ++ [CallDelete db' dkey] |}))).
  { intros db' k' Hk'. unfold store_gdbm_delete_record.
    destruct (k' >? INT_MAX) eqn:E; [apply Z.gtb_lt in E; lia |].
    cbn zeta. rewrite to_int_small by lia. reflexivity. }
  split; [| split; [| split]].
  - rewrite store_gdbm_store_calls by lia. cbn zeta.
    by rewrite !to_int_small by lia.
  - rewrite store_gdbm_fetch_calls by lia. cbn zeta.
    by rewrite !to_int_small by lia.
  - by apply Hdel.
  - intros store klen' vlen' Hk' Hv'.
    destruct store as [db'|].
    2: { cbn. split; [| split];
           (split; [intros Hc; by destruct Hc | intros [[x Hx] _]; discriminate Hx]). }
    split; [| split].
    + destruct (Z_le_gt_dec klen' INT_MAX) as [Hk1 | Hk1];
        [destruct (Z_le_gt_dec vlen' INT_MAX) as [Hv1 | Hv1] |].
      * rewrite store_gdbm_store_calls by lia. cbn zeta.
        destruct (gdbm_store _ _ _ _ _) as [rc [m g]]. cbn.
        split; [eauto | intros _; apply app_singleton_ne].
      * rewrite store_gdbm_store_refuses by (right; right; lia).
        cbn. split; [done | lia].
      * rewrite store_gdbm_store_refuses by (right; left; lia).
        cbn. split; [done | lia].
    + destruct (Z_le_gt_dec klen' INT_MAX) as [Hk1 | Hk1].
      * rewrite store_gdbm_fetch_calls by lia. cbn zeta.
        destruct (gdbm_fetch _ _ _) as [d [m g]]. cbn.
        split; [eauto | intros _; apply app_singleton_ne].
      * rewrite store_gdbm_fetch_refuses by (right; lia).
        cbn. split; [done | lia].
    + destruct (Z_le_gt_dec klen' INT_MAX) as [Hk1 | Hk1].
      * rewrite Hdel by lia. cbn zeta.
        destruct (gdbm_delete _ _ _) as [rc [m g]]. cbn.
        split; [eauto | intros _; apply app_singleton_ne].
      * rewrite store_gdbm_delete_record_refuses by (right; lia).
        cbn. split; [done | lia].
Qed.

(** X2: after [store_gdbm_close] the caller's handle is cleared, so a
    store, fetch or delete through it fails at once and changes nothing,
    a free of a NULL reference and a further close do nothing either. *)
Theorem X2_operations_after_close_fail_safely (db : GDBM_FILE) (h : StoreHandle)
    (key value : option addr) (klen vlen vl : Z) (w : world) :
  (store_gdbm_close (Some (Some db)) w).1 = Some h ->
  let w' := (store_gdbm_close (Some (Some db)) w).2 in
  store_gdbm_store h key klen value vlen w' = (-1, w')
  /\ store_gdbm_fetch h key klen vl w' = ((None, vl), w')
  /\ store_gdbm_delete_record h key klen w' = (-1, w')
  /\ store_gdbm_close (Some h) w' = (Some h, w')
  /\ w_calls w' = w_calls w ++ [CallClose db].
Proof.
  cbn. intros [= <-]. repeat split.
Qed.

End AdapterMore.

(** * Further properties of the adapter over the reference library *)

Section OverRefGdbmMore.

Import RefGdbm.

Implicit Types (w : @world ref_gdbm) (m : memory) (s : state).

Lemma ref_fetch_record (dbf : positive) (key : datum) (ms : memory * state) :
  ref_fetch dbf key ms =
    match record_of dbf key ms with
    | Some v =>
        ({| dptr := Some (fresh (dom ms.1)); dsize := Z.of_nat (length v) |},
         (<[fresh (dom ms.1) := v]> ms.1, ms.2))
    | None => (datum_zero, ms)
    end.
Proof. reflexivity. Qed.

(** What [store_gdbm_fetch] does over the reference library. *)
Lemma fetch_effect w (store : @StoreHandle ref_gdbm) (key : option addr) (klen vl : Z) :
  store_gdbm_fetch store key klen vl w = ((None, vl), w)
  \/ (exists dbf, store = Some dbf /\ klen <= INT_MAX
       /\ record_of dbf {| dptr := key; dsize := to_int klen |} (w_mem w, w_gdbm w) = None
       /\ store_gdbm_fetch store key klen vl w =
            ((None, 0),
             {| w_mem := w_mem w; w_gdbm := w_gdbm w;
                w_calls := w_calls w ++
                  [CallFetch dbf {| dptr := key; dsize := to_int klen |}] |}))
  \/ (exists dbf v, store = Some dbf /\ klen <= INT_MAX
       /\ record_of dbf {| dptr := key; dsize := to_int klen |} (w_mem w, w_gdbm w) = Some v
       /\ store_gdbm_fetch store key klen vl w =
            ((Some (fresh (dom (w_mem w))), to_size_t (Z.of_nat (length v))),
             {| w_mem := <[fresh (dom (w_mem w)) := v]> (w_mem w); w_gdbm := w_gdbm w;
                w_calls := w_calls w ++
                  [CallFetch dbf {| dptr := key; dsize := to_int klen |}] |})).
Proof.
  destruct store as [dbf|]; [| by left].
  destruct (Z_le_gt_dec klen INT_MAX) as [Hk | Hk].
  2: { left. apply store_gdbm_fetch_refuses. right. lia. }
  right.
  rewrite (store_gdbm_fetch_calls (G := ref_gdbm) dbf key klen vl w) by done.
  cbn zeta. change (@gdbm_fetch ref_gdbm) with ref_fetch.
  rewrite ref_fetch_record. cbn [fst snd].
  destruct (record_of dbf _ _) as [v|] eqn:Hr.
  - right. by exists dbf, v.
  - left. by exists dbf.
Qed.

(** X3: a fetch never changes the database, and it leaves every block of
    the program's memory as it was.  A non-NULL result is the address of
    a block that was not in use before the call; its length is the
    length the fetch reports. *)
Theorem X3_fetch_changes_no_record_and_no_block w (store : @StoreHandle ref_gdbm)
    (key : option addr) (klen vl : Z) :
  let res := store_gdbm_fetch store key klen vl w in
  w_gdbm res.2 = w_gdbm w
  /\ (forall a b, w_mem w !! a = Some b -> w_mem res.2 !! a = Some b)
  /\ (res.1.1 = None -> w_mem res.2 = w_mem w)
  /\ (forall p, res.1.1 = Some p ->
        w_mem w !! p = None
        /\ exists v, w_mem res.2 = <[p := v]> (w_mem w)
                     /\ res.1.2 = to_size_t (Z.of_nat (length v))).
Proof.
  cbn zeta.
  assert (Hfresh : w_mem w !! fresh (dom (w_mem w)) = None)
    by (apply not_elem_of_dom, is_fresh).
  destruct (fetch_effect w store key klen vl)
    as [-> | [(dbf & _ & _ & _ & ->) | (dbf & v & _ & _ & _ & ->)]]; cbn.
  - repeat split; try done.
  - repeat split; try done.
  - split; [done |]. split; [| split; [done |]].
    + intros a b Hab. unfold memory, addr in *.
      rewrite lookup_insert_ne; [done |]. congruence.
    + intros p [= <-]. split; [done |]. by exists v.
Qed.

(** X4: a fetch followed by a free of what it returned leaves the
    program's memory exactly as it was before the fetch (nothing leaks),
    with the caller's pointer cleared and the database untouched. *)
Theorem X4_fetch_then_free_restores_memory w (store : @StoreHandle ref_gdbm)
    (key : option addr) (klen vl : Z) :
  let res := store_gdbm_fetch store key klen vl w in
  let rel := store_gdbm_free store (Some res.1.1) res.2 in
  rel.1 = Some None /\ w_mem rel.2 = w_mem w /\ w_gdbm rel.2 = w_gdbm w.
Proof.
  cbn zeta.
  assert (Hfresh : w_mem w !! fresh (dom (w_mem w)) = None)
    by (apply not_elem_of_dom, is_fresh).
  destruct (fetch_effect w store key klen vl)
    as [-> | [(dbf & _ & _ & _ & ->) | (dbf & v & _ & _ & _ & ->)]]; cbn.
  - done.
  - done.
  - split; [done |]. split; [| done]. unfold free, memory, addr in *.
    by apply delete_insert_id.
Qed.

Lemma ref_store_cases m s (dbf : positive) (key content : datum) :
  ref_store dbf key content GDBM_REPLACE (m, s) = (-1, (m, s))
  \/ exists d f k v,
      opened s !! dbf = Some d /\ d_writer d = true /\ disk s !! d_path d = Some f
      /\ read_datum m key = Some k /\ read_datum m content = Some v
      /\ ref_store dbf key content GDBM_REPLACE (m, s) =
           (0, (m, set_disk (<[d_path d := set_records (<[k := v]> (f_records f)) f]>
                               (disk s)) s)).
Proof.
  unfold ref_store. cbn [fst snd].
  destruct (opened s !! dbf) as [d|] eqn:Ho; [| by left].
  destruct (d_writer d) eqn:Hw; [| by left].
  destruct (disk s !! d_path d) as [f|] eqn:Hd; [| by left].
  destruct (read_datum m key) as [k|] eqn:Hrk; [| by left].
  destruct (read_datum m content) as [v|] eqn:Hrv; [| by left].
  right. by exists d, f, k, v.
Qed.

Lemma ref_delete_cases m s (dbf : positive) (key : datum) :
  ref_delete dbf key (m, s) = (-1, (m, s))
  \/ exists d f k,
      opened s !! dbf = Some d /\ d_writer d = true /\ disk s !! d_path d = Some f
      /\ read_datum m key = Some k /\ is_Some (f_records f !! k)
      /\ ref_delete dbf key (m, s) =
           (0, (m, set_disk (<[d_path d := set_records (delete k (f_records f)) f]>
                               (disk s)) s)).
Proof.
  unfold ref_delete. cbn [fst snd].
  destruct (opened s !! dbf) as [d|] eqn:Ho; [| by left].
  destruct (d_writer d) eqn:Hw; [| by left].
  destruct (disk s !! d_path d) as [f|] eqn:Hd; [| by left].
  destruct (read_datum m key) as [k|] eqn:Hrk; [| by left].
  destruct (f_records f !! k) as [v|] eqn:Hv; [| by left].
  right. exists d, f, k. eauto 10.
Qed.

(** What [store_gdbm_store] does over the reference library: it fails
    with -1 and leaves memory and the database as they were, or it puts
    the content under the key in the file of a writer's descriptor. *)
Lemma store_effect w (store : @StoreHandle ref_gdbm) (key value : option addr)
    (klen vlen : Z) :
  let res := store_gdbm_store store key klen value vlen w in
  (res.1 = -1 /\ w_mem res.2 = w_mem w /\ w_gdbm res.2 = w_gdbm w)
  \/ (exists dbf d f k v,
        store = Some dbf /\ klen <= INT_MAX /\ vlen <= INT_MAX
        /\ opened (w_gdbm w) !! dbf = Some d /\ d_writer d = true
        /\ disk (w_gdbm w) !! d_path d = Some f
        /\ read_datum (w_mem w) {| dptr := key; dsize := to_int klen |} = Some k
        /\ read_datum (w_mem w) {| dptr := value; dsize := to_int vlen |} = Some v
        /\ res.1 = 0 /\ w_mem res.2 = w_mem w
        /\ w_gdbm res.2 =
             set_disk (<[d_path d := set_records (<[k := v]> (f_records f)) f]>
                         (disk (w_gdbm w))) (w_gdbm w)).
Proof.
  cbn zeta.
  destruct store as [dbf|]; [| by left].
  destruct (Z_le_gt_dec klen INT_MAX) as [Hk | Hk].
  2: { left. rewrite store_gdbm_store_refuses; [done |]. right. left. lia. }
  destruct (Z_le_gt_dec vlen INT_MAX) as [Hv | Hv].
  2: { left. rewrite store_gdbm_store_refuses; [done |]. right. right. lia. }
  rewrite (store_gdbm_store_calls (G := ref_gdbm) dbf key klen value vlen w) by done.
  cbn zeta. change (@gdbm_store ref_gdbm) with ref_store.
  change (@gdbm_state ref_gdbm) with state.
  destruct (ref_store_cases (w_mem w) (w_gdbm w) dbf
              {| dptr := key; dsize := to_int klen |}
              {| dptr := value; dsize := to_int vlen |})
    as [Heq | (d & f & k & v & Ho & Hw & Hd & Hrk & Hrv & Heq)]; rewrite Heq.
  - by left.
  - right. exists dbf, d, f, k, v. cbn. repeat split; done.
Qed.

(** What [store_gdbm_delete_record] does over the reference library: it
    fails with -1 and leaves memory and the database as they were, or it
    removes the record the key has in the file of a writer's descriptor. *)
Lemma delete_effect w (store : @StoreHandle ref_gdbm) (key : option addr) (klen : Z) :
  let res := store_gdbm_delete_record store key klen w in
  (res.1 = -1 /\ w_mem res.2 = w_mem w /\ w_gdbm res.2 = w_gdbm w)
  \/ (exists dbf d f k,
        store = Some dbf /\ klen <= INT_MAX
        /\ opened (w_gdbm w) !! dbf = Some d /\ d_writer d = true
        /\ disk (w_gdbm w) !! d_path d = Some f
        /\ read_datum (w_mem w) {| dptr := key; dsize := to_int klen |} = Some k
        /\ is_Some (f_records f !! k)
        /\ res.1 = 0 /\ w_mem res.2 = w_mem w
        /\ w_gdbm res.2 =
             set_disk (<[d_path d := set_records (delete k (f_records f)) f]>
                         (disk (w_gdbm w))) (w_gdbm w)).
Proof.
  cbn zeta.
  destruct store as [dbf|]; [| by left].
  destruct (Z_le_gt_dec klen INT_MAX) as [Hk | Hk].
  2: { left. rewrite store_gdbm_delete_record_refuses; [done |]. right. lia. }
  unfold store_gdbm_delete_record.
  destruct (klen >? INT_MAX) eqn:E; [apply Z.gtb_lt in E; lia |].
  cbn zeta. unfold call_delete.
  change (@gdbm_delete ref_gdbm) with ref_delete.
  change (@gdbm_state ref_gdbm) with state.
  destruct (ref_delete_cases (w_mem w) (w_gdbm w) dbf
              {| dptr := key; dsize := to_int klen |})
    as [Heq | (d & f & k & Ho & Hw & Hd & Hrk & Hv & Heq)]; rewrite Heq.
  - by left.
  - right. exists dbf, d, f, k. cbn. repeat split; done.
Qed.

(** What a caller sees of a fetch, in terms of the record the library
    holds. *)
Lemma fetched_record w (dbf : @GDBM_FILE ref_gdbm) (key : option addr) (klen : Z) :
  klen <= INT_MAX ->
  fetched (Some dbf) key klen w =
    match record_of dbf {| dptr := key; dsize := to_int klen |} (w_mem w, w_gdbm w) with
    | Some v => (Some v, to_size_t (Z.of_nat (length v)))
    | None => (None, 0)
    end.
Proof.
  intros Hk. unfold fetched.
  rewrite (store_gdbm_fetch_calls (G := ref_gdbm) dbf key klen 0 w) by done.
  cbn zeta. change (@gdbm_fetch ref_gdbm) with ref_fetch.
  rewrite ref_fetch_record. cbn [fst snd].
  destruct (record_of dbf _ _) as [v|]; cbn; [| done].
  unfold memory, addr in *. by rewrite lookup_insert_eq.
Qed.

Lemma record_of_lookup m s (dbf : positive) (d : descriptor) (f : db_file)
    (key : datum) (k : list byte) :
  opened s !! dbf = Some d -> disk s !! d_path d = Some f ->
  read_datum m key = Some k ->
  record_of dbf key (m, s) = f_records f !! k.
Proof.
  intros Ho Hd Hk. unfold record_of. cbn [fst snd].
  rewrite Ho. cbn. rewrite Hd. cbn. rewrite Hk. reflexivity.
Qed.

(** X5: when a delete returns 0, a fetch of the same key through the same
    handle finds nothing: a NULL pointer, with length 0. *)
Theorem X5_fetch_after_delete_misses w (store : @StoreHandle ref_gdbm)
    (key : option addr) (klen : Z) :
  (store_gdbm_delete_record store key klen w).1 = 0 ->
  fetched store key klen (store_gdbm_delete_record store key klen w).2 = (None, 0).
Proof.
  intros Hok.
  destruct (delete_effect w store key klen)
    as [(Hrc & _) | (dbf & d & f & k & -> & Hk & Ho & Hw & Hd & Hr & _ & _ & Hm & Hg)].
  { rewrite Hrc in Hok. discriminate. }
  rewrite fetched_record by done. rewrite Hm, Hg.
  rewrite (record_of_lookup _ _ dbf d (set_records (delete k (f_records f)) f) _ k);
    [| done | apply lookup_insert_eq | done].
  cbn. by rewrite lookup_delete_eq.
Qed.

(** X7: a store or a delete that does not return 0 returns -1 and has
    changed neither the database nor the program's memory: a failure
    leaves no partial write. *)
Theorem X7_failed_store_or_delete_changes_nothing w (store : @StoreHandle ref_gdbm)
    (key value : option addr) (klen vlen : Z) :
  (let res := store_gdbm_store store key klen value vlen w in
   res.1 <> 0 -> res.1 = -1 /\ w_mem res.2 = w_mem w /\ w_gdbm res.2 = w_gdbm w)
  /\ (let res := store_gdbm_delete_record store key klen w in
      res.1 <> 0 -> res.1 = -1 /\ w_mem res.2 = w_mem w /\ w_gdbm res.2 = w_gdbm w).
Proof.
  split; cbn zeta; intros Hne.
  - destruct (store_effect w store key value klen vlen) as [H | H]; [done |].
    destruct H as (? & ? & ? & ? & ? & H). by decompose [and] H.
  - destruct (delete_effect w store key klen) as [H | H]; [done |].
    destruct H as (? & ? & ? & ? & H). by decompose [and] H.
Qed.

(** Where a store succeeds: a writer's descriptor on an existing file, a
    key and a value that can be read. *)
Lemma store_succeeds w (dbf : @GDBM_FILE ref_gdbm) (d : descriptor) (f : db_file)
    (key value : option addr) (klen vlen : Z) (k v : list byte) :
  opened (w_gdbm w) !! dbf = Some d -> d_writer d = true ->
  disk (w_gdbm w) !! d_path d = Some f ->
  0 <= klen <= INT_MAX -> 0 <= vlen <= INT_MAX ->
  read_datum (w_mem w) {| dptr := key; dsize := klen |} = Some k ->
  read_datum (w_mem w) {| dptr := value; dsize := vlen |} = Some v ->
  store_gdbm_store (Some dbf) key klen value vlen w =
    (0, {| w_mem := w_mem w;
           w_gdbm := set_disk (<[d_path d := set_records (<[k := v]> (f_records f)) f]>
                                 (disk (w_gdbm w))) (w_gdbm w);
           w_calls := w_calls w ++
             [CallStore dbf {| dptr := key; dsize := klen |}
                {| dptr := value; dsize := vlen |} GDBM_REPLACE] |}).
Proof.
  intros Ho Hw Hd Hklen Hvlen Hk Hv.
  rewrite (store_gdbm_store_calls (G := ref_gdbm) dbf key klen value vlen w) by lia.
  cbn zeta. rewrite !to_int_small by lia.
  change (@gdbm_store ref_gdbm) with ref_store.
  by rewrite (ref_store_replace _ _ _ d f _ _ k v).
Qed.

Lemma ref_delete_present m s (dbf : positive) (d : descriptor) (f : db_file)
    (key : datum) (k : list byte) :
  opened s !! dbf = Some d -> d_writer d = true -> disk s !! d_path d = Some f ->
  read_datum m key = Some k -> is_Some (f_records f !! k) ->
  ref_delete dbf key (m, s) =
    (0, (m, set_disk (<[d_path d := set_records (delete k (f_records f)) f]> (disk s)) s)).
Proof.
  intros Ho Hw Hd Hk [v Hv]. unfold ref_delete. cbn [fst snd].
  rewrite Ho, Hw, Hd, Hk, Hv. reflexivity.
Qed.

(** Where a delete succeeds: a writer's descriptor on an existing file
    that has a record for the key. *)
Lemma delete_succeeds w (dbf : @GDBM_FILE ref_gdbm) (d : descriptor) (f : db_file)
    (key : option addr) (klen : Z) (k : list byte) :
  opened (w_gdbm w) !! dbf = Some d -> d_writer d = true ->
  disk (w_gdbm w) !! d_path d = Some f ->
  0 <= klen <= INT_MAX ->
  read_datum (w_mem w) {| dptr := key; dsize := klen |} = Some k ->
  is_Some (f_records f !! k) ->
  store_gdbm_delete_record (Some dbf) key klen w =
    (0, {| w_mem := w_mem w;
           w_gdbm := set_disk (<[d_path d := set_records (delete k (f_records f)) f]>
                                 (disk (w_gdbm w))) (w_gdbm w);
           w_calls := w_calls w ++ [CallDelete dbf {| dptr := key; dsize := klen |}] |}).
Proof.
  intros Ho Hw Hd Hklen Hk Hsome.
  unfold store_gdbm_delete_record.
  destruct (klen >? INT_MAX) eqn:E; [apply Z.gtb_lt in E; lia |].
  cbn zeta. rewrite to_int_small by lia. unfold call_delete.
  change (@gdbm_delete ref_gdbm) with ref_delete.
  by rewrite (ref_delete_present _ _ _ d f _ k).
Qed.

(** X6: through a writer's handle, a key that has just been stored can be
    deleted: the store returns 0, the delete returns 0, and the fetch
    that follows finds nothing; the program's memory is as it was. *)
Theorem X6_store_delete_fetch_misses w (dbf : @GDBM_FILE ref_gdbm) (d : descriptor)
    (f : db_file) (kp vp : addr) (kb vb : list byte) (klen vlen : Z) :
  opened (w_gdbm w) !! dbf = Some d -> d_writer d = true ->
  disk (w_gdbm w) !! d_path d = Some f ->
  w_mem w !! kp = Some kb -> 0 <= klen <= INT_MAX -> klen <= Z.of_nat (length kb) ->
  w_mem w !! vp = Some vb -> 0 <= vlen <= INT_MAX -> vlen <= Z.of_nat (length vb) ->
  let s1 := store_gdbm_store (Some dbf) (Some kp) klen (Some vp) vlen w in
  let s2 := store_gdbm_delete_record (Some dbf) (Some kp) klen s1.2 in
  s1.1 = 0 /\ s2.1 = 0
  /\ fetched (Some dbf) (Some kp) klen s2.2 = (None, 0)
  /\ w_mem s2.2 = w_mem w.
Proof.
  intros Ho Hw Hd Hkp Hklen Hkb Hvp Hvlen Hvb. cbn zeta.
  pose proof (read_datum_block (w_mem w) kp kb klen Hkp ltac:(lia)) as Hrk.
  pose proof (read_datum_block (w_mem w) vp vb vlen Hvp ltac:(lia)) as Hrv.
  rewrite (store_succeeds w dbf d f _ _ _ _ _ _ Ho Hw Hd Hklen Hvlen Hrk Hrv).
  cbn [fst snd].
  set (k := take (Z.to_nat klen) kb) in *.
  set (v := take (Z.to_nat vlen) vb) in *.
  set (f1 := set_records (<[k := v]> (f_records f)) f).
  match goal with
  | |- context [store_gdbm_delete_record _ _ _ ?w1] =>
      rewrite (delete_succeeds w1 dbf d f1 (Some kp) klen k)
  end.
  2: exact Ho.
  2: exact Hw.
  2: apply lookup_insert_eq.
  2: exact Hklen.
  2: exact Hrk.
  2: { exists v. apply lookup_insert_eq. }
  cbn [fst snd]. split; [done |]. split; [done |]. split; [| done].
  rewrite fetched_record by lia. cbn [w_mem w_gdbm]. rewrite to_int_small by lia.
  rewrite (record_of_lookup _ _ dbf d (set_records (delete k (f_records f1)) f1) _ k).
  - cbn. by rewrite lookup_delete_eq.
  - exact Ho.
  - apply lookup_insert_eq.
  - exact Hrk.
Qed.

(** X8: a delete of a key (given by a buffer that holds its bytes) that
    has no record in the file of a live handle, or a delete through a
    reader's handle, returns -1 and leaves the database and the
    program's memory as they were. *)
Theorem X8_delete_of_missing_key_fails w (dbf : @GDBM_FILE ref_gdbm)
    (key : option addr) (klen : Z) :
  0 <= klen ->
  (exists d f k,
      opened (w_gdbm w) !! dbf = Some d /\ disk (w_gdbm w) !! d_path d = Some f
      /\ read_datum (w_mem w) {| dptr := key; dsize := klen |} = Some k
      /\ f_records f !! k = None)
  \/ (exists d, opened (w_gdbm w) !! dbf = Some d /\ d_writer d = false) ->
  let res := store_gdbm_delete_record (Some dbf) key klen w in
  res.1 = -1 /\ w_mem res.2 = w_mem w /\ w_gdbm res.2 = w_gdbm w.
Proof.
  intros Hklen Hcase. cbn zeta.
  destruct (delete_effect w (Some dbf) key klen)
    as [H | (dbf' & d & f & k & [= <-] & Hk & Ho & Hw & Hd & Hr & Hsome & _)];
    [done | exfalso].
  rewrite to_int_small in Hr by lia.
  destruct Hcase as [(d' & f' & k' & Ho' & Hd' & Hr' & Hnone) | (d' & Ho' & Hw')].
  - assert (d' = d) as -> by congruence.
    assert (f' = f) as -> by congruence.
    assert (k' = k) as -> by congruence.
    rewrite Hnone in Hsome. by destruct Hsome.
  - congruence.
Qed.

(** X9: through a reader's handle (what the read-only fallback of
    [store_gdbm_open] gives) a store returns -1 and changes neither the
    database nor memory, and a fetch still returns the record the file
    has, before the failed store and after it. *)
Theorem X9_reader_handle_reads_but_never_writes w (dbf : @GDBM_FILE ref_gdbm)
    (d : descriptor) (key value : option addr) (klen vlen : Z) (v : list byte) :
  opened (w_gdbm w) !! dbf = Some d -> d_writer d = false ->
  0 <= klen <= INT_MAX ->
  record_of dbf {| dptr := key; dsize := klen |} (w_mem w, w_gdbm w) = Some v ->
  let s1 := store_gdbm_store (Some dbf) key klen value vlen w in
  s1.1 = -1 /\ w_mem s1.2 = w_mem w /\ w_gdbm s1.2 = w_gdbm w
  /\ fetched (Some dbf) key klen w = (Some v, to_size_t (Z.of_nat (length v)))
  /\ fetched (Some dbf) key klen s1.2 = (Some v, to_size_t (Z.of_nat (length v))).
Proof.
  intros Ho Hw Hklen Hrec. cbn zeta.
  destruct (store_effect w (Some dbf) key value klen vlen)
    as [(Hrc & Hm & Hg) | (dbf' & d' & ? & ? & ? & [= <-] & _ & _ & Ho' & Hw' & _)].
  2: { exfalso. congruence. }
  rewrite !fetched_record by lia. rewrite Hm, Hg, to_int_small by lia.
  by rewrite Hrec.
Qed.

(** A change of the records of the file a descriptor is open on shows in
    [record_of] at the changed key only. *)
Lemma record_of_other_key m s (dbf : positive) (d : descriptor) (f : db_file)
    (key2 : datum) (r : gmap (list byte) (list byte)) :
  opened s !! dbf = Some d -> disk s !! d_path d = Some f ->
  (forall k2, read_datum m key2 = Some k2 -> r !! k2 = f_records f !! k2) ->
  record_of dbf key2 (m, set_disk (<[d_path d := set_records r f]> (disk s)) s)
  = record_of dbf key2 (m, s).
Proof.
  intros Ho Hd Hsame. unfold record_of. cbn [fst snd set_disk opened disk].
  rewrite Ho. cbn. rewrite lookup_insert_eq, Hd. cbn.
  destruct (read_datum m key2) as [k2|]; cbn; [| done]. by apply Hsame.
Qed.

(** X10: for two keys given by buffers that hold their bytes, of
    different bytes, a store or a delete under the one changes nothing
    of what a fetch returns for the other, whether the store or the
    delete succeeds or fails. *)
Theorem X10_other_keys_are_untouched w (store : @StoreHandle ref_gdbm)
    (key value key2 : option addr) (klen vlen klen2 : Z) (k k2 : list byte) :
  0 <= klen <= INT_MAX -> 0 <= klen2 <= INT_MAX ->
  read_datum (w_mem w) {| dptr := key; dsize := klen |} = Some k ->
  read_datum (w_mem w) {| dptr := key2; dsize := klen2 |} = Some k2 ->
  k <> k2 ->
  fetched store key2 klen2 (store_gdbm_store store key klen value vlen w).2
    = fetched store key2 klen2 w
  /\ fetched store key2 klen2 (store_gdbm_delete_record store key klen w).2
    = fetched store key2 klen2 w.
Proof.
  intros Hklen Hklen2 Hrk Hrk2 Hdiff.
  destruct store as [dbf|]; [| done].
  rewrite !fetched_record by lia. rewrite !to_int_small by lia.
  split.
  - destruct (store_effect w (Some dbf) key value klen vlen)
      as [(_ & Hm & Hg)
         | (dbf' & d & f & k' & v & [= <-] & _ & _ & Ho & _ & Hd & Hr & _ & _ & Hm & Hg)];
      rewrite Hm, Hg; [done |].
    rewrite to_int_small in Hr by lia.
    assert (k' = k) as -> by congruence.
    rewrite (record_of_other_key _ _ dbf d f); [done | done | done |].
    intros k2' Hk2. apply lookup_insert_ne. congruence.
  - destruct (delete_effect w (Some dbf) key klen)
      as [(_ & Hm & Hg)
         | (dbf' & d & f & k' & [= <-] & _ & Ho & _ & Hd & Hr & _ & _ & Hm & Hg)];
      rewrite Hm, Hg; [done |].
    rewrite to_int_small in Hr by lia.
    assert (k' = k) as -> by congruence.
    rewrite (record_of_other_key _ _ dbf d f); [done | done | done |].
    intros k2' Hk2. apply lookup_delete_ne. congruence.
Qed.

(** X11: what was stored through a writer's handle outlives the handle.
    After the store, a close and a new open of the same path (the file
    being readable and writable) give a handle through which the fetch
    returns exactly the bytes stored, with their length. *)
Theorem X11_stored_value_survives_reopen w (dbf : @GDBM_FILE ref_gdbm) (d : descriptor)
    (f : db_file) (kp vp : addr) (kb vb : list byte) (klen vlen : Z) :
  opened (w_gdbm w) !! dbf = Some d -> d_writer d = true ->
  disk (w_gdbm w) !! d_path d = Some f ->
  f_readable f = true -> f_writable f = true ->
  w_mem w !! kp = Some kb -> 0 <= klen <= INT_MAX -> klen <= Z.of_nat (length kb) ->
  w_mem w !! vp = Some vb -> 0 <= vlen <= INT_MAX -> vlen <= Z.of_nat (length vb) ->
  let s1 := store_gdbm_store (Some dbf) (Some kp) klen (Some vp) vlen w in
  let c := store_gdbm_close (Some (Some dbf)) s1.2 in
  let o := store_gdbm_open (Some (d_path d)) c.2 in
  s1.1 = 0 /\ c.1 = Some None /\ is_Some o.1
  /\ fetched o.1 (Some kp) klen o.2 = (Some (take (Z.to_nat vlen) vb), vlen).
Proof.
  intros Ho Hw Hd Hfr Hfw Hkp Hklen Hkb Hvp Hvlen Hvb. cbn zeta.
  pose proof (read_datum_block (w_mem w) kp kb klen Hkp ltac:(lia)) as Hrk.
  pose proof (read_datum_block (w_mem w) vp vb vlen Hvp ltac:(lia)) as Hrv.
  rewrite (store_succeeds w dbf d f _ _ _ _ _ _ Ho Hw Hd Hklen Hvlen Hrk Hrv).
  cbn [fst snd].
  set (k := take (Z.to_nat klen) kb) in *.
  set (v := take (Z.to_nat vlen) vb) in *.
  set (f1 := set_records (<[k := v]> (f_records f)) f).
  unfold store_gdbm_close, store_gdbm_open, bind, ret, call_close, call_open.
  cbn [fst snd w_mem w_gdbm w_calls].
  change (@gdbm_open ref_gdbm) with ref_open.
  change (@gdbm_close ref_gdbm) with ref_close.
  unfold ref_open, ref_close. cbn [disk opened creatable set_disk].
  rewrite lookup_insert_eq. fold f1.
  replace (f_readable f1 && f_writable f1) with true
    by (cbn; by rewrite Hfr, Hfw).
  unfold new_descriptor. cbn [fst snd disk opened creatable].
  split; [done |]. split; [done |]. split; [eauto |].
  rewrite fetched_record by lia. cbn [w_mem w_gdbm]. rewrite to_int_small by lia.
  erewrite (record_of_lookup _ _ _ (Descriptor (d_path d) true) f1 _ k).
  - cbn. rewrite lookup_insert_eq. f_equal.
    subst v. rewrite length_take.
    replace (Z.of_nat (Z.to_nat vlen `min` length vb)) with vlen by lia.
    apply to_size_t_small. lia.
  - cbn. apply lookup_insert_eq.
  - cbn. apply lookup_insert_eq.
  - exact Hrk.
Qed.

End OverRefGdbmMore.

(** * Release of fetched buffers *)

Section Release.

Import RefGdbm.



End Release.

(** * Further properties of the delimiter validator *)

Section ValidatorMore.

Import Maildir.

Variable isalnum : ascii -> bool.

(** The return codes of a run of validations, one per request. *)
Lemma validations_length (changed : bool) (requests : list (ConfigDef * string)) :
  length (validations isalnum changed requests).1 = length requests.
Proof.
  revert changed. induction requests as [| [cdef v] rest IH]; intros changed; cbn;
    [done |].
  destruct (maildir_field_delimiter_validator isalnum changed cdef v "")
    as [[rc e] ch].
  specialize (IH ch). destruct (validations isalnum ch rest) as [rcs ch'].
  cbn in *. by f_equal.
Qed.

(** In a run of validations, from whatever state of the static: once a
    request has been accepted for a value whose character differs from
    that of the initial value, every later request is refused. *)
Lemma validations_after_change (changed : bool) (requests : list (ConfigDef * string))
    (i j : nat) (cdef : ConfigDef) (v : string) (rc : config_result) :
  (i < j)%nat ->
  requests !! i = Some (cdef, v) ->
  (validations isalnum changed requests).1 !! i = Some CSR_SUCCESS ->
  deref v <> deref (initial cdef) ->
  (validations isalnum changed requests).1 !! j = Some rc ->
  rc = CSR_ERR_INVALID.
Proof.
  revert changed i j.
  induction requests as [| [cdef0 v0] rest IH]; intros changed i j Hij Hreq Hok Hd Hj;
    [done |].
  cbn in Hok, Hj.
  pose proof (validator_static isalnum changed cdef0 v0 "") as Hst.
  destruct (maildir_field_delimiter_validator isalnum changed cdef0 v0 "")
    as [[rc0 e0] ch] eqn:Hv.
  destruct (validations isalnum ch rest) as [rcs ch'] eqn:Hrest.
  cbn in Hok, Hj, Hst.
  destruct j as [| j]; [lia |]. cbn in Hj.
  destruct i as [| i]; cbn in Hreq, Hok.
  - injection Hreq as -> ->. injection Hok as ->.
    rewrite decide_True in Hst by done. subst ch.
    destruct (validations_locked isalnum rest) as (Hall & _).
    rewrite Hrest in Hall. cbn in Hall.
    rewrite Forall_lookup in Hall. by apply (Hall j).
  - apply (IH ch i j); [lia | done | by rewrite Hrest | done | by rewrite Hrest].
Qed.

(** X12: the delimiter changes at most once in the life of the process.
    In any run of validations that starts with the static unset there is
    one return code per request, and once a request has been accepted
    for a value whose character differs from the initial value's, every
    later request is refused with [CSR_ERR_INVALID], whatever it asks
    for; so at most one such request is ever accepted. *)
Theorem X12_delimiter_changes_at_most_once (requests : list (ConfigDef * string)) :
  let rcs := (validations isalnum false requests).1 in
  length rcs = length requests
  /\ (forall i j cdef v rc,
        (i < j)%nat ->
        requests !! i = Some (cdef, v) -> rcs !! i = Some CSR_SUCCESS ->
        deref v <> deref (initial cdef) ->
        rcs !! j = Some rc -> rc = CSR_ERR_INVALID)
  /\ (forall i j cdef v cdef' v',
        requests !! i = Some (cdef, v) -> rcs !! i = Some CSR_SUCCESS ->
        deref v <> deref (initial cdef) ->
        requests !! j = Some (cdef', v') -> rcs !! j = Some CSR_SUCCESS ->
        deref v' <> deref (initial cdef') ->
        i = j).
Proof.
  cbn zeta. split; [apply validations_length |]. split.
  - intros i j cdef v rc. apply validations_after_change.
  - intros i j cdef v cdef' v' Hi Hoki Hdi Hj Hokj Hdj.
    destruct (Nat.lt_trichotomy i j) as [Hlt | [Heq | Hgt]]; [| done |].
    + by pose proof (validations_after_change false requests i j cdef v _
                       Hlt Hi Hoki Hdi Hokj).
    + by pose proof (validations_after_change false requests j i cdef' v' _
                       Hgt Hj Hokj Hdj Hoki).
Qed.

End ValidatorMore.

(** * Further properties of the shared index data *)

Section SharedDataMore.

Import Index.

Variable mview_mailbox : ptr -> ptr.
Variable Mailbox_account : positive -> ptr.
Variable Email_sequence : positive -> Z.
Variable NeoMutt_sub : ptr.
Variables NT_INDEX_NO_FLAGS NT_INDEX_SUBSET NT_INDEX_ACCOUNT : Z.
Variables NT_INDEX_MVIEW NT_INDEX_MAILBOX NT_INDEX_EMAIL : Z.

Abbreviation set_mview' :=
  (index_shared_data_set_mview mview_mailbox Mailbox_account NeoMutt_sub
     NT_INDEX_NO_FLAGS NT_INDEX_SUBSET NT_INDEX_ACCOUNT NT_INDEX_MVIEW
     NT_INDEX_MAILBOX NT_INDEX_EMAIL).

Abbreviation set_email' := (index_shared_data_set_email Email_sequence NT_INDEX_EMAIL).

Abbreviation is_cur_email' := (index_shared_data_is_cur_email Email_sequence).

(** The account of the mailbox of a view: [m ? m->account : NULL]. *)
Abbreviation account_of mv :=
  (match mview_mailbox mv with Some mp => Mailbox_account mp | None => None end).

Lemma ptr_ne_refl (p : ptr) : ptr_ne p p = false.
Proof. unfold ptr_ne. by rewrite bool_decide_eq_true_2. Qed.

Lemma ptr_ne_cases (p q : ptr) :
  (p = q /\ ptr_ne p q = false) \/ (p <> q /\ ptr_ne p q = true).
Proof.
  unfold ptr_ne. case_bool_decide; [left | right]; done.
Qed.

(** Every field of the shared data after [index_shared_data_set_mview]. *)
Lemma set_mview_result (sh : IndexSharedData) (mv : ptr) :
  exists ns,
    set_mview' (Some sh) mv =
      (Some {| sub := NeoMutt_sub; account := account_of mv; mailbox_view := mv;
               mailbox := mview_mailbox mv;
               email := if ptr_ne (mailbox sh) (mview_mailbox mv) then None else email sh;
               email_seq := if ptr_ne (mailbox sh) (mview_mailbox mv) then 0
                            else email_seq sh;
               notify := notify sh |}, ns).
Proof.
  unfold index_shared_data_set_mview. destruct sh as [s a v m e q n]. cbn.
  repeat match goal with
    | |- context [ptr_ne ?x ?y] =>
        let Hn := fresh "Hn" in
        destruct (ptr_ne_cases x y) as [[? Hn] | [? Hn]]; rewrite Hn; clear Hn; cbn; subst
    end;
    match goal with
    | |- context [Z.eqb ?x ?y] => destruct (Z.eqb x y)
    end; eexists; reflexivity.
Qed.

(** X13: whatever the shared data held, after
    [index_shared_data_set_mview] its view is the one given, its mailbox
    the mailbox of that view, its account the account of that mailbox
    (NULL without a mailbox) and its config subset [NeoMutt->sub]; the
    notifier is not touched.  A second call with the same view finds
    nothing to change and sends no notification. *)
Theorem X13_set_mview_agrees_with_view_and_is_idempotent (sh : IndexSharedData) (mv : ptr) :
  exists sh' ns,
    set_mview' (Some sh) mv = (Some sh', ns)
    /\ mailbox_view sh' = mv
    /\ mailbox sh' = mview_mailbox mv
    /\ account sh' = account_of mv
    /\ sub sh' = NeoMutt_sub
    /\ notify sh' = notify sh
    /\ set_mview' (Some sh') mv = (Some sh', []).
Proof.
  destruct (set_mview_result sh mv) as [ns Heq].
  eexists _, ns. split; [exact Heq |]. cbn. repeat split.
  unfold index_shared_data_set_mview. cbn.
  rewrite !ptr_ne_refl. cbn. by rewrite Z.eqb_refl.
Qed.

(** X14: [index_shared_data_set_mview] sends a notification exactly when
    one of the four fields had to change (the flags being non-zero and
    [NT_INDEX_NO_FLAGS] zero): none when the shared data already agreed
    with the view, and otherwise a single one, from the notifier of the
    shared data, of type [NT_INDEX]. *)
Theorem X14_set_mview_notifies_iff_changed (sh : IndexSharedData) (mv : ptr) :
  NT_INDEX_NO_FLAGS = 0 ->
  NT_INDEX_SUBSET <> 0 -> NT_INDEX_ACCOUNT <> 0 -> NT_INDEX_MVIEW <> 0 ->
  NT_INDEX_MAILBOX <> 0 ->
  let unchanged :=
    mailbox_view sh = mv /\ mailbox sh = mview_mailbox mv
    /\ account sh = account_of mv /\ sub sh = NeoMutt_sub in
  let res := set_mview' (Some sh) mv in
  (unchanged -> res = (Some sh, []))
  /\ (~ unchanged ->
       exists subtype, subtype <> 0
                       /\ res.2 = [NotifySend (notify sh) NT_INDEX subtype]).
Proof.
  intros -> Hs Ha Hv Hm. cbn zeta.
  unfold index_shared_data_set_mview. destruct sh as [s a v m e q n]. cbn.
  split.
  - intros (-> & -> & -> & ->). by rewrite !ptr_ne_refl.
  - intros Hnot.
    repeat match goal with
      | |- context [ptr_ne ?x ?y] =>
          let Hn := fresh "Hn" in
          destruct (ptr_ne_cases x y) as [[? Hn] | [? Hn]]; rewrite Hn; clear Hn; cbn
      end;
      try (exfalso; apply Hnot; done);
      match goal with
      | |- context [negb (?x =? 0)] =>
          assert (Hx : x <> 0)
            by (rewrite ?Z.lor_eq_0_iff; tauto);
          apply Z.eqb_neq in Hx as Hx'; rewrite Hx'; cbn
      end; eexists; (split; [exact Hx | reflexivity]).
Qed.

(** The sequence number [index_shared_data_set_email] records for an
    email that may be NULL: [e ? e->sequence : 0]. *)
Abbreviation seq_of e := (match e with Some ep => Email_sequence ep | None => 0 end).

(** Every field of the shared data after [index_shared_data_set_email]. *)
Lemma set_email_result (sh : IndexSharedData) (e : ptr) :
  (set_email' (Some sh) e).1 =
    Some {| sub := sub sh; account := account sh; mailbox_view := mailbox_view sh;
            mailbox := mailbox sh; email := e; email_seq := seq_of e;
            notify := notify sh |}.
Proof.
  unfold index_shared_data_set_email. destruct sh as [s a v m e0 q n]. cbn.
  destruct (ptr_ne_cases e0 e) as [[-> ->] | [_ ->]]; cbn; [| done].
  destruct (Z.eqb_spec q (seq_of e)) as [-> | _]; cbn; done.
Qed.

(** X15: after [index_shared_data_set_email] the shared data holds the
    email given and its sequence number (0 for NULL) and is otherwise as
    it was; an email is then answered to be current exactly when its
    sequence number is the one recorded, so the email that was set is
    current. *)
Theorem X15_set_email_then_is_cur_email (sh : IndexSharedData) (e : ptr) :
  exists sh',
    (set_email' (Some sh) e).1 = Some sh'
    /\ email sh' = e /\ email_seq sh' = seq_of e
    /\ sub sh' = sub sh /\ account sh' = account sh
    /\ mailbox_view sh' = mailbox_view sh /\ mailbox sh' = mailbox sh
    /\ notify sh' = notify sh
    /\ (forall e', is_cur_email' (Some sh') e' = true <-> Email_sequence e' = seq_of e)
    /\ (forall ep, e = Some ep -> is_cur_email' (Some sh') ep = true).
Proof.
  eexists. split; [apply set_email_result |]. cbn.
  repeat split; try done.
  - intros H%Z.eqb_eq. done.
  - intros H. by apply Z.eqb_eq.
  - intros ep ->. apply Z.eqb_refl.
Qed.

(** X16: [index_shared_data_set_email] sends one [NT_INDEX_EMAIL]
    notification, from the notifier of the shared data, when the email
    or its sequence number differs from what the shared data holds (so
    also for the same email once its sequence number has changed), and
    none otherwise; a second call with the same email changes nothing
    and sends nothing. *)
Theorem X16_set_email_notifies_once (sh : IndexSharedData) (e : ptr) :
  let res := set_email' (Some sh) e in
  (email sh = e /\ email_seq sh = seq_of e -> res = (Some sh, []))
  /\ (email sh <> e \/ email_seq sh <> seq_of e ->
       res.2 = [NotifySend (notify sh) NT_INDEX NT_INDEX_EMAIL])
  /\ set_email' res.1 e = (res.1, []).
Proof.
  cbn zeta. split; [| split].
  - intros [<- Hq]. unfold index_shared_data_set_email.
    rewrite ptr_ne_refl. cbn. apply Z.eqb_eq in Hq. by rewrite Hq.
  - intros Hdiff. unfold index_shared_data_set_email.
    destruct (ptr_ne_cases (email sh) e) as [[He ->] | [_ ->]]; cbn; [| done].
    destruct Hdiff as [? | Hq]; [done |]. apply Z.eqb_neq in Hq. by rewrite Hq.
  - rewrite set_email_result. unfold index_shared_data_set_email. cbn.
    rewrite ptr_ne_refl. cbn. by rewrite Z.eqb_refl.
Qed.

(** X17: once [index_shared_data_set_mview] has moved the shared data to
    another mailbox, no email with a non-zero sequence number is answered
    to be current, until an email is set again; an email whose sequence
    number is 0 is. *)
Theorem X17_no_current_email_after_mailbox_change (sh : IndexSharedData) (mv : ptr)
    (e : positive) :
  mailbox sh <> mview_mailbox mv ->
  is_cur_email' (set_mview' (Some sh) mv).1 e = (Email_sequence e =? 0).
Proof.
  intros Hne. destruct (set_mview_result sh mv) as [ns ->]. cbn.
  apply ptr_ne_spec in Hne. rewrite Hne. apply Z.eqb_sym.
Qed.

End SharedDataMore.

(** * The further properties at concrete inputs *)

(** X1 for a delete of "abc" through the handle of the new cache file:
    the library is asked once, for the 3 bytes at address 1, and its -1
    is returned. *)
Lemma X1_one_call_with_exact_lengths_witness :
  let w := (Scenario.opened_in Scenario.world_creatable).2 in
  store_gdbm_delete_record (H := RefGdbm.ref_gdbm) (Some 1%positive) (Some 1%positive) 3 w
  = (-1, {| w_mem := w_mem w; w_gdbm := w_gdbm w;
            w_calls := w_calls w ++
              [CallDelete 1%positive {| dptr := Some 1%positive; dsize := 3 |}] |}).
Proof.
  cbn zeta.
  destruct (X1_one_call_with_exact_lengths (G := RefGdbm.ref_gdbm) 1%positive
              (Some 1%positive) (Some 2%positive) 3 6 0
              (Scenario.opened_in Scenario.world_creatable).2)
    as (_ & _ & Hd & _); [unfold INT_MAX; lia | unfold INT_MAX; lia |].
  etransitivity; [exact Hd | reflexivity].
Defined.

(** X2 on the handle of the new cache file. *)
Lemma X2_operations_after_close_fail_safely_witness :
  let w := (Scenario.opened_in Scenario.world_creatable).2 in
  let w' := (store_gdbm_close (Some (Some 1%positive)) w).2 in
  store_gdbm_store None (Some 1%positive) 3 (Some 2%positive) 6 w' = (-1, w')
  /\ store_gdbm_fetch None (Some 1%positive) 3 5 w' = ((None, 5), w')
  /\ store_gdbm_delete_record None (Some 1%positive) 3 w' = (-1, w')
  /\ store_gdbm_close (Some None) w' = (Some None, w')
  /\ w_calls w' = w_calls w ++ [CallClose 1%positive].
Proof.
  cbn zeta.
  apply (X2_operations_after_close_fail_safely (G := RefGdbm.ref_gdbm) 1%positive None
           (Some 1%positive) (Some 2%positive) 3 6 5
           (Scenario.opened_in Scenario.world_creatable).2).
  reflexivity.
Defined.

(** X5 after "xyz123" was stored under "abc" and "abc" was deleted. *)
Lemma X5_fetch_after_delete_misses_witness :
  let w := (store_gdbm_store (Some 1%positive) (Some 1%positive) 3 (Some 2%positive) 6
              (Scenario.opened_in Scenario.world_creatable).2).2 in
  fetched (H := RefGdbm.ref_gdbm) (Some 1%positive) (Some 1%positive) 3
    (store_gdbm_delete_record (H := RefGdbm.ref_gdbm) (Some 1%positive)
       (Some 1%positive) 3 w).2 = (None, 0).
Proof.
  cbn zeta.
  apply (X5_fetch_after_delete_misses
           (store_gdbm_store (H := RefGdbm.ref_gdbm) (Some 1%positive) (Some 1%positive)
              3 (Some 2%positive) 6
              (Scenario.opened_in Scenario.world_creatable).2).2
           (@Some (@GDBM_FILE RefGdbm.ref_gdbm) 1%positive) (Some 1%positive) 3).
  reflexivity.
Defined.

(** X6 in the world where the cache file is created. *)
Lemma X6_store_delete_fetch_misses_witness :
  let w := (Scenario.opened_in Scenario.world_creatable).2 in
  let s1 := store_gdbm_store (Some 1%positive) (Some 1%positive) 3 (Some 2%positive) 6 w in
  let s2 := store_gdbm_delete_record (Some 1%positive) (Some 1%positive) 3 s1.2 in
  s1.1 = 0 /\ s2.1 = 0
  /\ fetched (H := RefGdbm.ref_gdbm) (Some 1%positive) (Some 1%positive) 3 s2.2 = (None, 0)
  /\ w_mem s2.2 = w_mem w.
Proof.
  cbn zeta.
  apply (X6_store_delete_fetch_misses
           (Scenario.opened_in Scenario.world_creatable).2 1%positive
           (RefGdbm.Descriptor Scenario.cache_path true) (RefGdbm.new_file 384)
           1%positive 2%positive Scenario.key_abc Scenario.val_xyz123 3 6);
    first [reflexivity | unfold INT_MAX; cbn; lia].
Defined.

(** X8 on the new, empty cache file: "abc" has no record. *)
Lemma X8_delete_of_missing_key_fails_witness :
  let w := (Scenario.opened_in Scenario.world_creatable).2 in
  let res := store_gdbm_delete_record (Some 1%positive) (Some 1%positive) 3 w in
  res.1 = -1 /\ w_mem res.2 = w_mem w /\ w_gdbm res.2 = w_gdbm w.
Proof.
  cbn zeta.
  apply (X8_delete_of_missing_key_fails
           (Scenario.opened_in Scenario.world_creatable).2 1%positive (Some 1%positive) 3).
  - lia.
  - left.
    exists (RefGdbm.Descriptor Scenario.cache_path true), (RefGdbm.new_file 384),
           Scenario.key_abc.
    repeat split; reflexivity.
Defined.

(** X9 on the handle of the read-only cache file, which holds "old" under
    "abc". *)
Lemma X9_reader_handle_reads_but_never_writes_witness :
  let w := (Scenario.opened_in Scenario.world_read_only).2 in
  let s1 := store_gdbm_store (Some 1%positive) (Some 1%positive) 3 (Some 2%positive) 6 w in
  s1.1 = -1 /\ w_mem s1.2 = w_mem w /\ w_gdbm s1.2 = w_gdbm w
  /\ fetched (H := RefGdbm.ref_gdbm) (Some 1%positive) (Some 1%positive) 3 w
       = (Some Scenario.val_old, to_size_t (Z.of_nat (length Scenario.val_old)))
  /\ fetched (H := RefGdbm.ref_gdbm) (Some 1%positive) (Some 1%positive) 3 s1.2
       = (Some Scenario.val_old, to_size_t (Z.of_nat (length Scenario.val_old))).
Proof.
  cbn zeta.
  apply (X9_reader_handle_reads_but_never_writes
           (Scenario.opened_in Scenario.world_read_only).2 1%positive
           (RefGdbm.Descriptor Scenario.cache_path false)
           (Some 1%positive) (Some 2%positive) 3 6 Scenario.val_old);
    first [reflexivity | unfold INT_MAX; lia].
Defined.

(** X10 on a database that holds "old" under "xyz123" and under "abc":
    a store of "xyz123" under "abc" and a delete of "abc" both succeed,
    and the fetch of "xyz123" returns "old" before and after each. *)
Lemma X10_other_keys_are_untouched_witness :
  let w0 := (Scenario.opened_in Scenario.world_creatable).2 in
  let w1 := (store_gdbm_store (H := RefGdbm.ref_gdbm) (Some 1%positive) (Some 2%positive) 6
               (Some 3%positive) 3 w0).2 in
  let w := (store_gdbm_store (H := RefGdbm.ref_gdbm) (Some 1%positive) (Some 1%positive) 3
              (Some 3%positive) 3 w1).2 in
  let stored := store_gdbm_store (H := RefGdbm.ref_gdbm) (Some 1%positive)
                  (Some 1%positive) 3 (Some 2%positive) 6 w in
  let deleted := store_gdbm_delete_record (H := RefGdbm.ref_gdbm) (Some 1%positive)
                   (Some 1%positive) 3 w in
  (fetched (H := RefGdbm.ref_gdbm) (Some 1%positive) (Some 2%positive) 6 stored.2
     = fetched (H := RefGdbm.ref_gdbm) (Some 1%positive) (Some 2%positive) 6 w
   /\ fetched (H := RefGdbm.ref_gdbm) (Some 1%positive) (Some 2%positive) 6 deleted.2
     = fetched (H := RefGdbm.ref_gdbm) (Some 1%positive) (Some 2%positive) 6 w)
  /\ fetched (H := RefGdbm.ref_gdbm) (Some 1%positive) (Some 2%positive) 6 w
     = (Some Scenario.val_old, 3)
  /\ stored.1 = 0 /\ deleted.1 = 0.
Proof.
  cbn zeta. split; [| repeat split].
  apply (X10_other_keys_are_untouched _ (@Some (@GDBM_FILE RefGdbm.ref_gdbm) 1%positive)
           (Some 1%positive) (Some 2%positive) (Some 2%positive) 3 6 6
           Scenario.key_abc Scenario.val_xyz123).
  - unfold INT_MAX. lia.
  - unfold INT_MAX. lia.
  - reflexivity.
  - reflexivity.
  - discriminate.
Defined.

(** X11 in the world where the cache file is created: "xyz123" stored
    under "abc", the handle closed, the path opened again. *)
Lemma X11_stored_value_survives_reopen_witness :
  let w := (Scenario.opened_in Scenario.world_creatable).2 in
  let s1 := store_gdbm_store (Some 1%positive) (Some 1%positive) 3 (Some 2%positive) 6 w in
  let c := store_gdbm_close (Some (Some 1%positive)) s1.2 in
  let o := store_gdbm_open (Some Scenario.cache_path) c.2 in
  s1.1 = 0 /\ c.1 = Some None /\ is_Some o.1
  /\ fetched (H := RefGdbm.ref_gdbm) o.1 (Some 1%positive) 3 o.2 = (Some (take (Z.to_nat 6) Scenario.val_xyz123), 6).
Proof.
  cbn zeta.
  apply (X11_stored_value_survives_reopen
           (Scenario.opened_in Scenario.world_creatable).2 1%positive
           (RefGdbm.Descriptor Scenario.cache_path true) (RefGdbm.new_file 384)
           1%positive 2%positive Scenario.key_abc Scenario.val_xyz123 3 6);
    first [reflexivity | unfold INT_MAX; cbn; lia].
Defined.

(** X12 in the "C" locale: ":" is accepted, ";" is accepted and changes
    the delimiter, and the ":" and "+" that follow are refused. *)
Lemma X12_delimiter_changes_at_most_once_witness :
  (Maildir.validations Maildir.isalnum_C false
     [(Maildir.maildir_field_delimiter_def, ":"%string);
      (Maildir.maildir_field_delimiter_def, ";"%string);
      (Maildir.maildir_field_delimiter_def, ":"%string);
      (Maildir.maildir_field_delimiter_def, "+"%string)]).1
    = [Maildir.CSR_SUCCESS; Maildir.CSR_SUCCESS; Maildir.CSR_ERR_INVALID;
       Maildir.CSR_ERR_INVALID]
  /\ forall rc,
       (Maildir.validations Maildir.isalnum_C false
          [(Maildir.maildir_field_delimiter_def, ":"%string);
           (Maildir.maildir_field_delimiter_def, ";"%string);
           (Maildir.maildir_field_delimiter_def, ":"%string);
           (Maildir.maildir_field_delimiter_def, "+"%string)]).1 !! 3%nat = Some rc ->
       rc = Maildir.CSR_ERR_INVALID.
Proof.
  split; [reflexivity |].
  intros rc.
  apply (proj1 (proj2 (X12_delimiter_changes_at_most_once Maildir.isalnum_C
                         [(Maildir.maildir_field_delimiter_def, ":"%string);
                          (Maildir.maildir_field_delimiter_def, ";"%string);
                          (Maildir.maildir_field_delimiter_def, ":"%string);
                          (Maildir.maildir_field_delimiter_def, "+"%string)]))
           1%nat 3%nat Maildir.maildir_field_delimiter_def ";"%string rc).
  - lia.
  - reflexivity.
  - reflexivity.
  - vm_compute. discriminate.
Defined.

(** X14 and X17 at an input: the shared data holds view 1 of mailbox 10
    with email 100 (sequence 7); view 2 is of mailbox 20. *)
Lemma X14_set_mview_notifies_iff_changed_witness :
  let mview_mailbox := fun mv : Index.ptr =>
    match mv with
    | Some 1%positive => Some 10%positive
    | Some 2%positive => Some 20%positive
    | _ => None
    end in
  let sh := {| Index.sub := Some 5%positive; Index.account := Some 6%positive;
               Index.mailbox_view := Some 1%positive; Index.mailbox := Some 10%positive;
               Index.email := Some 100%positive; Index.email_seq := 7;
               Index.notify := Some 9%positive |} in
  Index.index_shared_data_set_mview mview_mailbox (fun _ => Some 6%positive)
    (Some 5%positive) 0 4 8 16 32 64 (Some sh) (Some 1%positive) = (Some sh, [])
  /\ exists subtype, subtype <> 0
     /\ (Index.index_shared_data_set_mview mview_mailbox (fun _ => Some 6%positive)
           (Some 5%positive) 0 4 8 16 32 64 (Some sh) (Some 2%positive)).2
        = [Index.NotifySend (Some 9%positive) Index.NT_INDEX subtype].
Proof.
  cbn zeta. split.
  - apply (X14_set_mview_notifies_iff_changed
             (fun mv : Index.ptr =>
                match mv with
                | Some 1%positive => Some 10%positive
                | Some 2%positive => Some 20%positive
                | _ => None
                end)
             (fun _ => Some 6%positive) (Some 5%positive) 0 4 8 16 32 64); try done.
  - apply (X14_set_mview_notifies_iff_changed
             (fun mv : Index.ptr =>
                match mv with
                | Some 1%positive => Some 10%positive
                | Some 2%positive => Some 20%positive
                | _ => None
                end)
             (fun _ => Some 6%positive) (Some 5%positive) 0 4 8 16 32 64); try done.
    intros (H & _). discriminate.
Defined.

Lemma X17_no_current_email_after_mailbox_change_witness :
  let mview_mailbox := fun mv : Index.ptr =>
    match mv with
    | Some 1%positive => Some 10%positive
    | Some 2%positive => Some 20%positive
    | _ => None
    end in
  let sh := {| Index.sub := Some 5%positive; Index.account := Some 6%positive;
               Index.mailbox_view := Some 1%positive; Index.mailbox := Some 10%positive;
               Index.email := Some 100%positive; Index.email_seq := 7;
               Index.notify := Some 9%positive |} in
  Index.index_shared_data_is_cur_email (fun _ => 7)
    (Index.index_shared_data_set_mview mview_mailbox (fun _ => Some 6%positive)
       (Some 5%positive) 0 4 8 16 32 64 (Some sh) (Some 2%positive)).1 100%positive
  = (7 =? 0).
Proof.
  cbn zeta.
  apply (X17_no_current_email_after_mailbox_change
           (fun mv : Index.ptr =>
              match mv with
              | Some 1%positive => Some 10%positive
              | Some 2%positive => Some 20%positive
              | _ => None
              end)
           (fun _ => Some 6%positive) (fun _ => 7) (Some 5%positive) 0 4 8 16 32 64).
  discriminate.
Defined.
